(** * DuetLapse.py: a shallow embedding of the capture loop

    The script keeps its state in module globals ([zo], [frame],
    [printerState], [timePriorPhoto], [alreadyPaused]) and talks to the
    printer through [DuetWebAPI], to the camera and to ffmpeg through
    [subprocess.call].  We model it with a state monad carrying

    - the globals of the script,
    - the printer as seen during the current tick (a snapshot of its
      status, layer and the wall clock, refreshed by [time.sleep]),
    - a countdown to the delivery of SIGINT, counted in primitive
      operations (sleep, printer call, subprocess call), and
    - a countdown to the first printer call that raises,

    with Python exceptions as an explicit result and a timestamped trace of
    the observable effects (G-code sent, subprocesses run, log lines). *)

From Stdlib Require Import ZArith List String Ascii Bool Lia.
Import ListNotations.
Open Scope string_scope.
Open Scope Z_scope.

(** ** Python helpers *)

(** [a in b] for Python strings: substring test. *)
Fixpoint str_in (pat s : string) : bool :=
  String.prefix pat s ||
  match s with
  | EmptyString => false
  | String _ s' => str_in pat s'
  end.

(** Decimal digits, least significant first; [fuel] bounds the length. *)
Fixpoint digits_rev (fuel : nat) (n : Z) : list ascii :=
  match fuel with
  | O => []
  | S f =>
      if n <=? 0 then []
      else ascii_of_nat (48 + Z.to_nat (n mod 10)) :: digits_rev f (n / 10)
  end.

(** [str(n)] for [n >= 0].  [log2 n + 1] binary digits bound the decimal ones. *)
Definition dec (n : Z) : string :=
  if n =? 0 then "0"
  else string_of_list_ascii (rev (digits_rev (S (Z.to_nat (Z.log2 n))) n)).

Fixpoint zeros (k : nat) : string :=
  match k with
  | O => EmptyString
  | S k' => String "0" (zeros k')
  end.

(** Left padding with zeros to width [w]. *)
Definition zfill (w : nat) (s : string) : string :=
  zeros (w - String.length s) ++ s.

(** ["{0:08d}".format(n)]: the sign counts in the width. *)
Definition fmt08 (n : Z) : string :=
  if n <? 0 then "-" ++ zfill 7 (dec (- n)) else zfill 8 (dec n).

(** ["{0:4.2f}".format(x)] for a coordinate given in hundredths. *)
Definition fmt42 (c : Z) : string :=
  (if c <? 0 then "-" else EmptyString) ++ dec (Z.abs c / 100) ++ "."
  ++ zfill 2 (dec (Z.abs c mod 100)).

(** ** Configuration, printer snapshots, globals *)

(** The parsed command line (lines 76-94).  Strings stay strings, as the
    script tests them with [in]; [-seconds] and [-movehead] are floats in
    the script, here a time unit and hundredths of a millimetre. *)
Record Cfg := mkCfg {
  duet : string;
  camera : string;
  seconds : Z;
  detect : string;
  pause : string;
  movehead : Z * Z;
  weburl : string;
  basedir : string;
  extratime : string;
  dontwait : bool;
  camparms : string;
  vidparms : string
}.

(** What the printer and the clock report during one tick. *)
Record Snap := mkSnap {
  sn_status : string;   (** [printer.getStatus()] *)
  sn_layer : Z;         (** [printer.getLayer()] *)
  sn_now : Z;           (** [time.time()] *)
  sn_stamp : string     (** [time.strftime('%a-%H:%M', time.localtime())] *)
}.

Record St := mkSt {
  zo : Z;
  frame : Z;
  printerState : Z;
  timePriorPhoto : Z;
  alreadyPaused : bool;
  cur : Snap;
  sig : option nat;     (** SIGINT arrives before this many more primitive ops *)
  pfail : option nat    (** the printer call after this many more raises *)
}.

Definition set_zo v s := mkSt v (frame s) (printerState s) (timePriorPhoto s)
  (alreadyPaused s) (cur s) (sig s) (pfail s).
Definition set_frame v s := mkSt (zo s) v (printerState s) (timePriorPhoto s)
  (alreadyPaused s) (cur s) (sig s) (pfail s).
Definition set_printerState v s := mkSt (zo s) (frame s) v (timePriorPhoto s)
  (alreadyPaused s) (cur s) (sig s) (pfail s).
Definition set_timePriorPhoto v s := mkSt (zo s) (frame s) (printerState s) v
  (alreadyPaused s) (cur s) (sig s) (pfail s).
Definition set_alreadyPaused v s := mkSt (zo s) (frame s) (printerState s)
  (timePriorPhoto s) v (cur s) (sig s) (pfail s).
Definition set_cur v s := mkSt (zo s) (frame s) (printerState s)
  (timePriorPhoto s) (alreadyPaused s) v (sig s) (pfail s).
Definition set_sig v s := mkSt (zo s) (frame s) (printerState s)
  (timePriorPhoto s) (alreadyPaused s) (cur s) v (pfail s).
Definition set_pfail v s := mkSt (zo s) (frame s) (printerState s)
  (timePriorPhoto s) (alreadyPaused s) (cur s) (sig s) v.

Definition now_ (s : St) : Z := sn_now (cur s).

(** ** Observable effects *)

(** The [logger.info] calls of the loop, one constructor per call site
    (or per block of consecutive calls). *)
Inductive Log :=
| LogPauseReq                      (** 'Requesting pause via M25' *)
| LogMoveHead                      (** 'Moving print head to ...' *)
| LogUnpause                       (** 'Requesting un pause via M24' *)
| LogLayerCapture (fr zn : Z)      (** 'Capturing frame ... Layer ...' *)
| LogIntervalCapture (fr elap : Z) (** 'Capturing frame ... after ... seconds elapsed.' *)
| LogPauseDetected (fr : Z)        (** 'Pause Detected, capturing frame ...' *)
| LogPrintStart                    (** 'Print start sensed.' and the lines after it *)
| LogSigint                        (** 'Stopped by SIGINT - Post Processing' *)
| LogCtrlC                         (** 'Stopped by Ctl+C - Post Processing' *)
| LogMakingVideo (fr : Z)          (** 'Now making ... frames into a video ...' *)
| LogVideoDone (fn : string).      (** 'Video processing complete.' / 'Video is in file ...' *)

Inductive Ev :=
| EvGCode (code : string)             (** [printer.gCode(code)] *)
| EvCapture (fn cmd : string)         (** [subprocess.call(cmd)] in [onePhoto] *)
| EvAssemble (fn cmd : string)        (** [subprocess.call(cmd)] in [postProcess] *)
| EvLog (m : Log).

(** Python exceptions that can escape the loop.  [exit(c)] raises
    [SystemExit c]; [exit()] is [SystemExit 0]. *)
Inductive Exn :=
| PrinterError
| NameError
| SystemExit (code : Z)
| KeyboardInterrupt.

(** Exit status of the interpreter for an exception reaching the top. *)
Definition exit_code (e : Exn) : Z :=
  match e with SystemExit c => c | _ => 1 end.

Inductive Res (A : Type) :=
| Ok (a : A) (s : St)
| Raise (e : Exn) (s : St).
Arguments Ok {A} a s.
Arguments Raise {A} e s.

Definition Trace := list (Z * Ev).
Definition M (A : Type) := St -> Res A * Trace.

Definition ret {A} (a : A) : M A := fun s => (Ok a s, []).
Definition bind {A B} (m : M A) (k : A -> M B) : M B := fun s =>
  match m s with
  | (Ok a s', t1) => let (r, t2) := k a s' in (r, (t1 ++ t2)%list)
  | (Raise e s', t1) => (Raise e s', t1)
  end.

Notation "x <- c1 ;; c2" := (bind c1 (fun x => c2))
  (at level 61, c1 at next level, right associativity).
Notation "c1 ;; c2" := (bind c1 (fun _ => c2))
  (at level 61, right associativity).

Definition get : M St := fun s => (Ok s s, []).
Definition modify (f : St -> St) : M unit := fun s => (Ok tt (f s), []).
Definition raise {A} (e : Exn) : M A := fun s => (Raise e s, []).
Definition emit (e : Ev) : M unit := fun s => (Ok tt s, [(now_ s, e)]).
Definition log (m : Log) : M unit := emit (EvLog m).

(** ** Primitive operations *)

(** [postProcess()] (lines 338-358), parametric in how [subprocess.call] is
    performed: from the loop it is a signal point, from the SIGINT handler
    it is not (the one signal has been consumed). *)
Definition postProcess_with (shell : string -> string -> M unit) (cfg : Cfg)
  : M unit :=
  s <- get ;;
  log (LogMakingVideo (frame s)) ;;
  let fn := basedir cfg ++ "/DuetLapse-" ++ sn_stamp (cur s) ++ ".mp4" in
  let cmd :=
    if String.eqb (vidparms cfg) EmptyString
    then (if String.eqb (extratime cfg) "0"
          then "ffmpeg -r 10 -i /tmp/DuetLapse/IMG%08d.jpeg -vcodec libx264 -y -v 8 " ++ fn
          else "ffmpeg -r 10 -i /tmp/DuetLapse/IMG%08d.jpeg -c:v libx264 -vf tpad=stop_mode=clone:stop_duration="
               ++ extratime cfg ++ ",fps=10 " ++ fn)
    else (if String.eqb (extratime cfg) "0"
          then "ffmpeg " ++ vidparms cfg ++ " -i /tmp/DuetLapse/IMG%08d.jpeg " ++ fn
          else "ffmpeg " ++ vidparms cfg ++ " -i /tmp/DuetLapse/IMG%08d.jpeg -c:v libx264 -vf tpad=stop_mode=clone:stop_duration="
               ++ extratime cfg ++ ",fps=10 " ++ fn) in
  shell fn cmd ;;
  log (LogVideoDone fn) ;;
  raise (SystemExit 0).

(** [quit_gracefully] (lines 383-386), installed for SIGINT at line 389.
    [postProcess] ends in [exit()], so the trailing [exit(0)] is never
    reached; it is kept as in the source. *)
Definition quit_gracefully (cfg : Cfg) : M unit :=
  log LogSigint ;;
  postProcess_with (fun fn cmd => emit (EvAssemble fn cmd)) cfg ;;
  raise (SystemExit 0).

(** A point where a pending SIGINT is delivered: the Python handler runs
    there, before the next primitive operation. *)
Definition sigpoint (cfg : Cfg) : M unit := fun s =>
  match sig s with
  | Some O => quit_gracefully cfg (set_sig None s)
  | Some (S k) => (Ok tt (set_sig (Some k) s), [])
  | None => (Ok tt s, [])
  end.

(** A call to the printer through [DuetWebAPI]; it raises when the
    failure countdown reaches zero. *)
Definition pcall {A} (cfg : Cfg) (f : Snap -> A) : M A :=
  sigpoint cfg ;;
  fun s =>
    match pfail s with
    | Some O => (Raise PrinterError s, [])
    | Some (S k) => (Ok (f (cur s)) (set_pfail (Some k) s), [])
    | None => (Ok (f (cur s)) s, [])
    end.

Definition getStatus (cfg : Cfg) : M string := pcall cfg sn_status.
Definition getLayer (cfg : Cfg) : M Z := pcall cfg sn_layer.
(** [printer.getCoords()]: only printed in a log line. *)
Definition getCoords (cfg : Cfg) : M unit := pcall cfg (fun _ => tt).
Definition gCode (cfg : Cfg) (code : string) : M unit :=
  pcall cfg (fun _ => tt) ;; emit (EvGCode code).

(** [time.sleep(.77)]: the printer and the clock move on to the next snapshot. *)
Definition sleep (cfg : Cfg) (sn : Snap) : M unit :=
  sigpoint cfg ;; modify (set_cur sn).

(** [subprocess.call]: SIGINT reaches the script before the call, or while
    the child runs, in which case the handler runs when the call returns. *)
Definition shell (cfg : Cfg) (e : Ev) : M unit :=
  sigpoint cfg ;; emit e ;; sigpoint cfg.

Definition postProcess (cfg : Cfg) : M unit :=
  postProcess_with (fun fn cmd => shell cfg (EvAssemble fn cmd)) cfg.

(** ** The capture logic (lines 254-335) *)

Definition move_cmd (cfg : Cfg) : string :=
  "G1 X" ++ fmt42 (fst (movehead cfg)) ++ " Y" ++ fmt42 (snd (movehead cfg)).

Definition movehead_zero (cfg : Cfg) : bool :=
  (fst (movehead cfg) =? 0) && (snd (movehead cfg) =? 0).

Definition checkForcePause (cfg : Cfg) : M unit :=
  s <- get ;;
  if alreadyPaused s then ret tt else
  if negb (str_in "yes" (pause cfg)) then ret tt else
  log LogPauseReq ;;
  gCode cfg "M25" ;;
  gCode cfg "M400" ;;
  modify (set_alreadyPaused true) ;;
  if negb (movehead_zero cfg) then
    log LogMoveHead ;;
    gCode cfg (move_cmd cfg) ;;
    gCode cfg "M400"
  else ret tt.

Definition unPause (cfg : Cfg) : M unit :=
  s <- get ;;
  if alreadyPaused s then log LogUnpause ;; gCode cfg "M24" else ret tt.

(** The double quote character. *)
Definition dq : string := String (ascii_of_nat 34) EmptyString.

(** The capture command chosen by camera; [None] when no branch assigns
    [cmd], where Python raises [UnboundLocalError] (a [NameError]). *)
Definition photo_cmd (cfg : Cfg) (fn : string) : option string :=
  let c := camera cfg in
  let p := camparms cfg in
  let cmd := @None string in
  let cmd := if str_in "usb" c then
      Some (if String.eqb p EmptyString then "fswebcam --quiet --no-banner " ++ fn
            else "fswebcam " ++ p ++ " " ++ fn) else cmd in
  let cmd := if str_in "pi" c then
      Some (if String.eqb p EmptyString then "raspistill -t 1 -ex sports -mm matrix -n -o " ++ fn
            else "raspistill  " ++ p ++ " -o " ++ fn) else cmd in
  let cmd := if str_in "ffmpeg" c then
      Some (if String.eqb p EmptyString then "ffmpeg -y -i " ++ weburl cfg ++ " -vframes 1 " ++ fn
            else "ffmpeg " ++ p ++ " " ++ weburl cfg ++ " -vframes 1 " ++ fn) else cmd in
  let cmd := if str_in "web" c then
      Some (if String.eqb p EmptyString then "wget --auth-no-challenge -nv -O " ++ fn ++ " " ++ dq ++ weburl cfg ++ dq ++ " "
            else "wget " ++ p ++ " -O " ++ fn ++ " " ++ dq ++ weburl cfg ++ dq ++ " ") else cmd in
  cmd.

Definition slot_name (n : Z) : string := "/tmp/DuetLapse/IMG" ++ fmt08 n ++ ".jpeg".

Definition onePhoto (cfg : Cfg) : M unit :=
  modify (fun s => set_frame (frame s + 1) s) ;;
  s <- get ;;
  let fn := slot_name (frame s) in
  match photo_cmd cfg fn with
  | None => raise NameError
  | Some cmd =>
      shell cfg (EvCapture fn cmd) ;;
      modify (fun s' => set_timePriorPhoto (now_ s') s')
  end.

(** [oneInterval()] (lines 308-335), block by block. *)

(** Lines 311-319: the layer trigger. *)
Definition layerBlock (cfg : Cfg) : M unit :=
  if str_in "layer" (detect cfg) then
    zn <- getLayer cfg ;;
    s <- get ;;
    (if negb (zn =? zo s) then
       checkForcePause cfg ;;
       s1 <- get ;;
       getCoords cfg ;; getCoords cfg ;; getCoords cfg ;;
       log (LogLayerCapture (frame s1) zn) ;;
       onePhoto cfg
     else ret tt) ;;
    modify (set_zo zn)
  else ret tt.

(** Lines 320-326: the interval trigger. *)
Definition intervalBlock (cfg : Cfg) : M unit :=
  s <- get ;;
  let elap := now_ s - timePriorPhoto s in
  if negb (seconds cfg =? 0) && (seconds cfg <? elap) then
    checkForcePause cfg ;;
    s1 <- get ;;
    log (LogIntervalCapture (frame s1) elap) ;;
    onePhoto cfg
  else ret tt.

(** Lines 328-332: the pause-detected trigger.  Python's [and] evaluates
    [printer.getStatus()] only when ['pause' in detect]. *)
Definition pauseBlock (cfg : Cfg) : M unit :=
  if str_in "pause" (detect cfg) then
    st <- getStatus cfg ;;
    s <- get ;;
    if str_in "paused" st && negb (alreadyPaused s) then
      modify (set_alreadyPaused true) ;;
      s1 <- get ;;
      log (LogPauseDetected (frame s1)) ;;
      onePhoto cfg ;;
      unPause cfg
    else ret tt
  else ret tt.

(** Lines 334-335: re-arming; [getStatus] is called only when
    [alreadyPaused] holds. *)
Definition clearBlock (cfg : Cfg) : M unit :=
  s <- get ;;
  if alreadyPaused s then
    st <- getStatus cfg ;;
    if negb (str_in "paused" st) then modify (set_alreadyPaused false) else ret tt
  else ret tt.

Definition oneInterval (cfg : Cfg) : M unit :=
  layerBlock cfg ;; intervalBlock cfg ;; pauseBlock cfg ;; clearBlock cfg.

(** ** The main loop (lines 391-415) *)

(** One iteration of [while(1)]. *)
Definition tick (cfg : Cfg) (sn : Snap) : M unit :=
  sleep cfg sn ;;
  status <- getStatus cfg ;;
  s <- get ;;
  if printerState s =? 0 then
    (if dontwait cfg then oneInterval cfg else ret tt) ;;
    (if str_in "processing" status then
       log LogPrintStart ;; modify (set_printerState 1)
     else ret tt)
  else if printerState s =? 1 then
    oneInterval cfg ;;
    (if str_in "idle" status then modify (set_printerState 2) else ret tt)
  else if printerState s =? 2 then
    postProcess cfg
  else ret tt.

(** The loop, run over the snapshots the printer goes through; when they
    run out the script is still looping. *)
Fixpoint loop (cfg : Cfg) (sns : list Snap) : M unit :=
  match sns with
  | [] => ret tt
  | sn :: rest => tick cfg sn ;; loop cfg rest
  end.

(** [try: ... except KeyboardInterrupt: ...] *)
Definition try_kbi (m : M unit) (h : M unit) : M unit := fun s =>
  match m s with
  | (Raise KeyboardInterrupt s', t1) => let (r, t2) := h s' in (r, (t1 ++ t2)%list)
  | other => other
  end.

Definition main_loop (cfg : Cfg) (sns : list Snap) : M unit :=
  try_kbi (loop cfg sns) (log LogCtrlC ;; postProcess cfg).

(** ** Start-up (lines 96-225) *)

(** What [init()] finds on the host: whether the instance check counts
    more than one allowed process, which tools [whereis] finds, and
    whether [printer.printerType()] answers. *)
Record Env := mkEnv {
  duplicate : bool;
  has_tool : string -> bool;
  printer_responds : bool
}.

(** The exits of [init()]: [Some c] for [exit(c)], [None] when it returns. *)
Definition startup (cfg : Cfg) (env : Env) : option Z :=
  if duplicate env then Some 1 else
  if str_in "dlsr" (camera cfg) then Some 2 else
  if negb (movehead_zero cfg)
     && (negb (str_in "yes" (pause cfg)) && negb (str_in "pause" (detect cfg)))
  then Some 2 else
  if str_in "yes" (pause cfg) && str_in "pause" (detect cfg) then Some 2 else
  if str_in "usb" (camera cfg) && negb (has_tool env "fswebcam") then Some 2 else
  if str_in "pi" (camera cfg) && negb (has_tool env "raspistill") then Some 2 else
  if str_in "ffmpeg" (camera cfg) && negb (has_tool env "ffmpeg") then Some 2 else
  if str_in "web" (camera cfg) && negb (has_tool env "wget") then Some 2 else
  if negb (has_tool env "ffmpeg") then Some 2 else
  if negb (printer_responds env) then Some 2 else
  None.

(** The globals after line 377 ([timePriorPhoto = time.time()]). *)
Definition init_state (sn0 : Snap) (sg pf : option nat) : St :=
  mkSt (-1) 0 0 (sn_now sn0) false sn0 sg pf.

(** The whole script: [init()], then the loop. *)
Definition process (cfg : Cfg) (env : Env) (sn0 : Snap) (sns : list Snap)
  (sg pf : option nat) : Res unit * Trace :=
  let s0 := init_state sn0 sg pf in
  match startup cfg env with
  | Some c => (Raise (SystemExit c) s0, [])
  | None => main_loop cfg sns s0
  end.

(** ** Observations on traces *)

Definition is_capture (e : Z * Ev) : bool :=
  match snd e with EvCapture _ _ => true | _ => false end.
Definition is_assemble (e : Z * Ev) : bool :=
  match snd e with EvAssemble _ _ => true | _ => false end.
Definition is_gcode (c : string) (e : Z * Ev) : bool :=
  match snd e with EvGCode c' => String.eqb c c' | _ => false end.
Definition is_interval (e : Z * Ev) : bool :=
  match snd e with EvLog (LogIntervalCapture _ _) => true | _ => false end.

Definition is_layer_fire (e : Z * Ev) : bool :=
  match snd e with EvLog (LogLayerCapture _ _) => true | _ => false end.
Definition is_pause_fire (e : Z * Ev) : bool :=
  match snd e with EvLog (LogPauseDetected _) => true | _ => false end.

Definition count (p : Z * Ev -> bool) (t : Trace) : nat := List.length (filter p t).

(** The printer-facing and camera-facing effects, in order. *)
Inductive Cmd := CGCode (c : string) | CCapture (fn : string) | CAssemble.

Fixpoint commands (t : Trace) : list Cmd :=
  match t with
  | [] => []
  | (_, EvGCode c) :: t' => CGCode c :: commands t'
  | (_, EvCapture fn _) :: t' => CCapture fn :: commands t'
  | (_, EvAssemble _ _) :: t' => CAssemble :: commands t'
  | (_, EvLog _) :: t' => commands t'
  end.

Definition outcome {A} (r : Res A * Trace) : Res A := fst r.
Definition trace {A} (r : Res A * Trace) : Trace := snd r.
Definition final {A} (r : Res A * Trace) : St :=
  match fst r with Ok _ s => s | Raise _ s => s end.

Definition camera_ok (cfg : Cfg) : bool :=
  str_in "usb" (camera cfg) || str_in "pi" (camera cfg)
  || str_in "ffmpeg" (camera cfg) || str_in "web" (camera cfg).

Definition capture_fns (t : Trace) : list string :=
  flat_map (fun e => match snd e with EvCapture fn _ => [fn] | _ => [] end) t.

(** [n] consecutive integers from [a]. *)
Fixpoint zseq (a : Z) (n : nat) : list Z :=
  match n with
  | O => []
  | S n' => a :: zseq (a + 1) n'
  end.

Definition is_m24 : Z * Ev -> bool := is_gcode "M24".

(** [m] never produces an event satisfying [p]. *)
Definition Silent (p : Z * Ev -> bool) {A} (m : M A) : Prop :=
  forall s, count p (trace (m s)) = 0%nat.

(** An assembly only ever happens on the way out through [exit()]. *)
Definition AsmExit {A} (m : M A) : Prop :=
  forall s, count is_assemble (trace (m s)) <> 0%nat ->
  exists s', outcome (m s) = Raise (SystemExit 0) s'.

(** [m] never raises [KeyboardInterrupt]: with the SIGINT handler
    installed, Ctrl+C runs [quit_gracefully] instead. *)
Definition NoKBI {A} (m : M A) : Prop :=
  forall s s', outcome (m s) <> Raise KeyboardInterrupt s'.

(** Started with a SIGINT pending, [m] either returns with it still
    pending and without assembling, or ends; if it ends because the signal
    was delivered outside the [Finished] phase, it ends in [exit(0)] after
    exactly one assembly. *)
Definition SigHat {A} (m : M A) (s : St) : Prop :=
  sig s <> None ->
  (forall a s', outcome (m s) = Ok a s' ->
     sig s' <> None /\ count is_assemble (trace (m s)) = 0%nat) /\
  (forall e s', outcome (m s) = Raise e s' -> sig s' = None -> printerState s' <> 2 ->
     e = SystemExit 0 /\ count is_assemble (trace (m s)) = 1%nat).

Definition SigH {A} (m : M A) : Prop := forall s, SigHat m s.

(** The captures of [m] are the slots after [frame], in order, and when
    [m] returns the counter has moved past exactly those. *)
Definition FrameOK {A} (m : M A) : Prop :=
  forall s, exists n, capture_fns (trace (m s)) = map slot_name (zseq (frame s + 1) n) /\
    (forall a s', outcome (m s) = Ok a s' -> frame s' = frame s + Z.of_nat n).

(** [m] captures nothing and leaves the counter alone when it returns. *)
Definition NoCap {A} (m : M A) : Prop :=
  forall s, capture_fns (trace (m s)) = [] /\
    (forall a s', outcome (m s) = Ok a s' -> frame s' = frame s).

(** [m] captures into [fn] at most once, surely when it returns, and
    leaves the counter alone. *)
Definition CapOnce (fn : string) {A} (m : M A) : Prop :=
  forall s, (capture_fns (trace (m s)) = [] \/ capture_fns (trace (m s)) = [fn]) /\
    (forall a s', outcome (m s) = Ok a s' ->
       capture_fns (trace (m s)) = [fn] /\ frame s' = frame s).

(** The decimal digit [d] (for [0 <= d < 10]). *)
Definition digit (d : Z) : ascii := ascii_of_nat (48 + Z.to_nat d).

(** [n mod 10^k] in exactly [k] decimal digits, most significant first. *)
Fixpoint fixed (k : nat) (n : Z) : string :=
  match k with
  | O => EmptyString
  | S k' => fixed k' (n / 10) ++ String (digit (n mod 10)) EmptyString
  end.

(** [m] leaves the part [f] of the state as it found it, however it ends. *)
Definition Pres {B} (f : St -> B) {A} (m : M A) : Prop :=
  forall s, f (final (m s)) = f s.

(** The times of the interval-triggered captures of a trace, in order. *)
Definition itimes (t : Trace) : list Z :=
  flat_map (fun e => if is_interval e then [fst e] else []) t.

(** The last element of [l], or [lo] when [l] is empty. *)
Fixpoint lastZ (lo : Z) (l : list Z) : Z :=
  match l with
  | [] => lo
  | x :: r => lastZ x r
  end.

(** Each time of [l] is more than [gap] after the one before it, the first
    more than [gap] after [lo]. *)
Fixpoint spaced (gap lo : Z) (l : list Z) : Prop :=
  match l with
  | [] => True
  | x :: r => lo + gap < x /\ spaced gap x r
  end.

(** [lo] (the last interval capture) is not after [timePriorPhoto], which is
    not after the clock. *)
Definition TimeInv (lo : Z) (s : St) : Prop :=
  lo <= timePriorPhoto s <= now_ s.

(** The interval captures of [m] are spaced by more than [gap]; when [m]
    returns, the clock has not moved and the invariant holds for its last
    interval capture. *)
Definition GapOK (gap : Z) {A} (m : M A) : Prop :=
  forall s lo, TimeInv lo s ->
    spaced gap lo (itimes (trace (m s))) /\
    (forall a s', outcome (m s) = Ok a s' ->
       TimeInv (lastZ lo (itimes (trace (m s)))) s' /\ now_ s' = now_ s).

(** The clock readings of the snapshots never go back, starting from [t]. *)
Fixpoint nondecr (t : Z) (sns : list Snap) : Prop :=
  match sns with
  | [] => True
  | sn :: r => t <= sn_now sn /\ nondecr (sn_now sn) r
  end.

(** With no signal and no printer failure pending, [m] returns, keeps both
    that way, leaves the phase, the snapshot and [alreadyPaused] alone, and
    neither detects a pause nor asks for a resume. *)
Definition Quiet {A} (m : M A) : Prop :=
  forall s, sig s = None -> pfail s = None ->
  exists a s' t, m s = (Ok a s', t) /\ sig s' = None /\ pfail s' = None /\
    printerState s' = printerState s /\ cur s' = cur s /\
    alreadyPaused s' = alreadyPaused s /\
    count is_pause_fire t = 0%nat /\ count is_m24 t = 0%nat.

(** ** The instance check and the logger of [init()] (lines 96-138) *)

(** A process as [psutil.process_iter()] lists it. *)
Record Proc := mkProc {
  pname : string;          (** [p.name()] *)
  pcmdline : list string   (** [p.cmdline()] *)
}.

(** [x in l] for a Python list of strings. *)
Definition list_in (x : string) (l : list string) : bool := existsb (String.eqb x) l.

(** The test of line 104: a Python 3 process running this script, whose
    path ([__file__]) is [file]. *)
Definition is_instance (file : string) (p : Proc) : bool :=
  str_in "python3" (pname p) && list_in file (pcmdline p).

(** The body of the loop (lines 104-110), on [(proccount, allowed)]. *)
Definition instance_step (instances duet file : string) (acc : Z * Z) (p : Proc) : Z * Z :=
  let '(proccount, allowed) := acc in
  if is_instance file p then
    let allowed := if str_in "single" instances then allowed + 1 else allowed in
    let allowed := if str_in "oneip" instances
                   then (if list_in duet (pcmdline p) then allowed + 1 else allowed)
                   else allowed in
    (proccount + 1, allowed)
  else (proccount, allowed).

(** Lines 98-110. *)
Definition instance_counts (instances duet file : string) (procs : list Proc) : Z * Z :=
  fold_left (instance_step instances duet file) procs (0, 0).

(** A handler given to [logger]: a [StreamHandler] with its format, or a
    [FileHandler] with its path, its mode and its format. *)
Inductive Handler :=
| StreamH (fmt : string)
| FileH (path mode fmt : string).

(** Lines 98-138: [inl 1] for [sys.exit(1)] (after printing 'Process is
    already running...'), or the handlers added to the logger, in order. *)
Definition init_logging (instances logtype duet basedir file : string)
  (procs : list Proc) : Z + list Handler :=
  let '(proccount, allowed) := instance_counts instances duet file procs in
  if allowed >? 1 then inl 1 else
  inr (app
    (if str_in "console" logtype || str_in "both" logtype
     then [StreamH (duet ++ " %(message)s")] else [])
    (if str_in "file" logtype || str_in "both" logtype
     then [FileH (basedir ++ "/DuetLapse.log")
                 (if proccount >? 1 then "a" else "w")
                 (duet ++ " - %(asctime)s - %(message)s")]
     else [])).

(** ** [-extratime] (lines 64 and 85) *)



(** ** More observations on traces *)




(** [int(s)] for a string of decimal digits, one digit at a time. *)
Definition dstep (acc : Z) (c : ascii) : Z := 10 * acc + (Z.of_nat (nat_of_ascii c) - 48).
Definition dval (s : string) : Z := fold_left dstep (list_ascii_of_string s) 0.



(** ** Concrete inputs *)

Definition snap (st : string) (l t : Z) : Snap := mkSnap st l t "Mon-10:00".

Definition cfg_with (cam det pz : string) (secs : Z) (mh : Z * Z) : Cfg :=
  mkCfg "printer" cam secs det pz mh EmptyString "~" "0" false EmptyString EmptyString.

(** A host with every tool, a responding printer, no other instance. *)
Definition env_ok : Env := mkEnv false (fun _ => true) true.

(** A state during printing: globals as at start, [printerState = 1]. *)
Definition printing_state (sn : Snap) : St := set_printerState 1 (init_state sn None None).

(** * Proofs *)

(** ** Monad and trace lemmas *)

Open Scope list_scope.

Lemma count_app p t1 t2 : count p (t1 ++ t2) = (count p t1 + count p t2)%nat.
Proof. unfold count. now rewrite filter_app, length_app. Qed.

Lemma capture_fns_app t1 t2 :
  capture_fns (t1 ++ t2) = (capture_fns t1 ++ capture_fns t2)%list.
Proof. unfold capture_fns. now rewrite flat_map_app. Qed.

Lemma bind_ok {A B} (m : M A) (k : A -> M B) s a s1 t1 :
  m s = (Ok a s1, t1) ->
  bind m k s = (fst (k a s1), (t1 ++ snd (k a s1))%list).
Proof. intros H. unfold bind. rewrite H. now destruct (k a s1). Qed.

Lemma bind_raise {A B} (m : M A) (k : A -> M B) s e s1 t1 :
  m s = (Raise e s1, t1) -> bind m k s = (Raise e s1, t1).
Proof. intros H. unfold bind. now rewrite H. Qed.

Lemma photo_cmd_some cfg fn : camera_ok cfg = true -> exists cmd, photo_cmd cfg fn = Some cmd.
Proof.
  unfold camera_ok, photo_cmd. intros H.
  destruct (str_in "usb" (camera cfg)), (str_in "pi" (camera cfg)),
    (str_in "ffmpeg" (camera cfg)), (str_in "web" (camera cfg));
    simpl in H; try discriminate; eexists; reflexivity.
Qed.

Lemma photo_cmd_none cfg fn : camera_ok cfg = false -> photo_cmd cfg fn = None.
Proof.
  unfold camera_ok, photo_cmd. intros H.
  destruct (str_in "usb" (camera cfg)), (str_in "pi" (camera cfg)),
    (str_in "ffmpeg" (camera cfg)), (str_in "web" (camera cfg));
    simpl in H; try discriminate; reflexivity.
Qed.
Lemma layerBlock_spec cfg s :
  str_in "layer" (detect cfg) = true -> camera_ok cfg = true ->
  sig s = None -> pfail s = None ->
  exists s' t, layerBlock cfg s = (Ok tt s', t) /\ zo s' = sn_layer (cur s) /\
    count is_capture t = (if sn_layer (cur s) =? zo s then 0%nat else 1%nat) /\
    count is_layer_fire t = (if sn_layer (cur s) =? zo s then 0%nat else 1%nat).
Proof.
  intros Hl Hc Hs Hp.
  destruct s as [z f ps tpp ap c sg pf]; simpl in *; subst.
  destruct (photo_cmd_some cfg (slot_name (f + 1)) Hc) as [cmd Hcmd].
  unfold layerBlock. rewrite Hl.
  unfold checkForcePause, onePhoto, getCoords, getLayer, gCode, shell, pcall, sigpoint, log, emit, modify, get, ret, bind.
  destruct (Z.eqb (sn_layer c) z) eqn:E; cbn -[photo_cmd slot_name]; rewrite ?E; cbn -[photo_cmd slot_name].
  - eexists _, _. split; [reflexivity|]. auto.
  - destruct ap; cbn -[photo_cmd slot_name]; [|destruct (str_in "yes" (pause cfg)); cbn -[photo_cmd slot_name]; [destruct (movehead_zero cfg); cbn -[photo_cmd slot_name]|]];
      rewrite Hcmd; cbn -[photo_cmd slot_name]; eexists _, _; (split; [reflexivity|]); auto.
Qed.

Lemma init_zo sn0 sg pf : zo (init_state sn0 sg pf) = -1.
Proof. reflexivity. Qed.

(** ** C10 *)

(** C10: the last-observed layer starts at the sentinel -1, so when the
    layer trigger is active a first reading of -1 does not fire, and any
    other first reading fires (one capture). *)
Theorem layer_sentinel_first_reading cfg sn0 sn :
  str_in "layer" (detect cfg) = true -> camera_ok cfg = true ->
  let s := set_cur sn (init_state sn0 None None) in
  zo s = -1 /\
  count is_capture (trace (layerBlock cfg s))
    = (if sn_layer sn =? -1 then 0%nat else 1%nat) /\
  count is_layer_fire (trace (layerBlock cfg s))
    = (if sn_layer sn =? -1 then 0%nat else 1%nat).
Proof.
  intros Hl Hc s.
  destruct (layerBlock_spec cfg s Hl Hc eq_refl eq_refl) as (s' & t & E & _ & H1 & H2).
  unfold trace. rewrite E. simpl. split; [reflexivity|]. auto.
Qed.

Lemma layer_sentinel_first_reading_witness :
  str_in "layer" (detect (cfg_with "usb" "layer" "no" 0 (0, 0))) = true /\
  camera_ok (cfg_with "usb" "layer" "no" 0 (0, 0)) = true /\
  (let s := set_cur (snap "processing" (-1) 1) (init_state (snap "idle" 0 0) None None) in
   zo s = -1 /\
   count is_capture (trace (layerBlock (cfg_with "usb" "layer" "no" 0 (0, 0)) s))
     = (if sn_layer (snap "processing" (-1) 1) =? -1 then 0%nat else 1%nat) /\
   count is_layer_fire (trace (layerBlock (cfg_with "usb" "layer" "no" 0 (0, 0)) s))
     = (if sn_layer (snap "processing" (-1) 1) =? -1 then 0%nat else 1%nat)).
Proof.
  split; [reflexivity|]. split; [reflexivity|].
  apply (layer_sentinel_first_reading (cfg_with "usb" "layer" "no" 0 (0, 0))); reflexivity.
Defined.

(** ** C3 *)

(** C3 (corrected): with the layer trigger active, the layer branch of a
    tick captures one photo exactly when the reading differs from the
    last-observed layer, in either direction, and stores the reading
    unconditionally; the last-observed layer starts at the sentinel -1.
    Stated for a capture-capable camera and a tick without printer failure
    or interrupt. *)
Theorem layer_trigger_on_change cfg s :
  str_in "layer" (detect cfg) = true -> camera_ok cfg = true ->
  sig s = None -> pfail s = None ->
  (exists s' t, layerBlock cfg s = (Ok tt s', t) /\ zo s' = sn_layer (cur s) /\
     count is_capture t = (if sn_layer (cur s) =? zo s then 0%nat else 1%nat) /\
     count is_layer_fire t = (if sn_layer (cur s) =? zo s then 0%nat else 1%nat)) /\
  (forall sn0 sg pf, zo (init_state sn0 sg pf) = -1).
Proof.
  intros Hl Hc Hs Hp. split.
  - now apply layerBlock_spec.
  - intros. apply init_zo.
Qed.

Lemma layer_trigger_on_change_witness :
  str_in "layer" (detect (cfg_with "pi" "layer" "no" 0 (0, 0))) = true /\
  camera_ok (cfg_with "pi" "layer" "no" 0 (0, 0)) = true /\
  sig (set_cur (snap "processing" 3 5) (printing_state (snap "idle" 0 0))) = None /\
  pfail (set_cur (snap "processing" 3 5) (printing_state (snap "idle" 0 0))) = None /\
  ((exists s' t,
     layerBlock (cfg_with "pi" "layer" "no" 0 (0, 0))
       (set_cur (snap "processing" 3 5) (printing_state (snap "idle" 0 0))) = (Ok tt s', t) /\
     zo s' = sn_layer (cur (set_cur (snap "processing" 3 5) (printing_state (snap "idle" 0 0)))) /\
     count is_capture t = (if 3 =? -1 then 0%nat else 1%nat) /\
     count is_layer_fire t = (if 3 =? -1 then 0%nat else 1%nat)) /\
   (forall sn0 sg pf, zo (init_state sn0 sg pf) = -1)).
Proof.
  split; [reflexivity|]. split; [reflexivity|]. split; [reflexivity|]. split; [reflexivity|].
  apply (layer_trigger_on_change (cfg_with "pi" "layer" "no" 0 (0, 0))); reflexivity.
Defined.

(** C3 does not hold as stated: a first reading of -1 equals the sentinel,
    so no photo is taken on it. *)
Lemma layer_first_reading_minus_one_no_capture :
  count is_capture
    (trace (oneInterval (cfg_with "usb" "layer" "no" 0 (0, 0))
              (set_cur (snap "processing" (-1) 1) (printing_state (snap "idle" 0 0)))))
  = 0%nat.
Proof. vm_compute. reflexivity. Qed.

(** ** C1 *)

(** C1 (the forced-pause sequence has no resume): with [-pause yes] and the
    layer trigger, a tick where the layer changes issues M25, M400 and the
    capture, and no M24; the run goes on. *)
Theorem forced_pause_layer_capture_no_resume :
  let cfg := cfg_with "usb" "layer" "yes" 0 (0, 0) in
  let r := tick cfg (snap "processing" 1 2) (printing_state (snap "processing" 0 1)) in
  commands (trace r) =
    [CGCode "M25"; CGCode "M400"; CCapture "/tmp/DuetLapse/IMG00000001.jpeg"] /\
  count (is_gcode "M24") (trace r) = 0%nat /\
  (exists s', outcome r = Ok tt s').
Proof. vm_compute. split; [reflexivity|]. split; [reflexivity|]. eexists. reflexivity. Qed.

(** ** Effects an action never produces *)

Section SilentLemmas.
Variable p : Z * Ev -> bool.

Lemma Silent_bind {A B} (m : M A) (k : A -> M B) :
  Silent p m -> (forall a, Silent p (k a)) -> Silent p (bind m k).
Proof.
  unfold Silent, trace. intros H1 H2 s. unfold bind.
  specialize (H1 s). destruct (m s) as [[a s1|e s1] t1]; simpl in *; auto.
  specialize (H2 a s1). destruct (k a s1) as [r t2]. simpl in *.
  rewrite count_app. lia.
Qed.

Lemma Silent_ret {A} (a : A) : Silent p (ret a).
Proof. intros s. reflexivity. Qed.
Lemma Silent_get : Silent p get.
Proof. intros s. reflexivity. Qed.
Lemma Silent_modify f : Silent p (modify f).
Proof. intros s. reflexivity. Qed.
Lemma Silent_raise {A} e : Silent p (@raise A e).
Proof. intros s. reflexivity. Qed.
Lemma Silent_emit e : (forall t, p (t, e) = false) -> Silent p (emit e).
Proof. intros H s. unfold emit, trace, count. simpl. now rewrite H. Qed.
Lemma Silent_try_kbi (m h : M unit) : Silent p m -> Silent p h -> Silent p (try_kbi m h).
Proof.
  unfold Silent, trace, try_kbi. intros H1 H2 s. specialize (H1 s).
  destruct (m s) as [[a s1|[ | | c | ] s1] t1]; simpl in *; auto.
  specialize (H2 s1). destruct (h s1) as [r t2]. simpl in *. rewrite count_app. lia.
Qed.
End SilentLemmas.

Ltac walk bindlem leaf :=
  repeat first
    [ solve [leaf]
    | apply bindlem; intros; cbv beta
    | match goal with
      | |- context [if ?b then _ else _] => destruct b
      | |- context [match ?x with _ => _ end] => destruct x
      end ].

(** Leaves closed by computation: only primitive actions, never a
    composite one. *)
Ltac prim tac :=
  lazymatch goal with
  | |- _ (ret _) => tac
  | |- _ get => tac
  | |- _ (modify _) => tac
  | |- _ (raise _) => tac
  | |- _ (emit _) => tac
  end.

(** Apply a lemma about [f cfg] only to a goal about [f cfg]. *)
Ltac on_head f tac := lazymatch goal with |- _ (f _) => tac end.


Lemma Silent_m24_sigpoint cfg : Silent is_m24 (sigpoint cfg).
Proof. intros s. unfold sigpoint. destruct (sig s) as [[|k]|]; reflexivity. Qed.

Lemma Silent_m24_pcall {A} cfg (f : Snap -> A) : Silent is_m24 (pcall cfg f).
Proof.
  unfold pcall. apply Silent_bind; [apply Silent_m24_sigpoint|].
  intros _ s. destruct (pfail s) as [[|k]|]; reflexivity.
Qed.

Lemma Silent_m24_gCode cfg c : c <> "M24" -> Silent is_m24 (gCode cfg c).
Proof.
  intros H. unfold gCode. apply Silent_bind; [apply Silent_m24_pcall|].
  intros _. apply Silent_emit. intros t. unfold is_m24, is_gcode; cbn [snd].
  apply String.eqb_neq. auto.
Qed.

Ltac m24_leaf :=
  first [ apply Silent_ret | apply Silent_get | apply Silent_modify | apply Silent_raise
        | apply Silent_m24_sigpoint | apply Silent_m24_pcall
        | apply Silent_m24_gCode; discriminate
        | apply Silent_m24_gCode; unfold move_cmd; simpl; discriminate
        | apply Silent_emit; reflexivity ].

Lemma Silent_m24_shell cfg e : (forall t, is_m24 (t, e) = false) -> Silent is_m24 (shell cfg e).
Proof. intros H. unfold shell. walk Silent_bind m24_leaf. apply Silent_emit, H. Qed.

Ltac m24 := walk Silent_bind ltac:(first [m24_leaf | apply Silent_m24_shell; reflexivity]).

Lemma Silent_m24_checkForcePause cfg : Silent is_m24 (checkForcePause cfg).
Proof. unfold checkForcePause, log. m24. Qed.

Lemma Silent_m24_onePhoto cfg : Silent is_m24 (onePhoto cfg).
Proof. unfold onePhoto. m24. Qed.

Lemma Silent_m24_postProcess cfg : Silent is_m24 (postProcess cfg).
Proof. unfold postProcess, postProcess_with, log. m24. Qed.

Lemma no_resume_without_pause_detect cfg sns :
  str_in "pause" (detect cfg) = false -> Silent is_m24 (main_loop cfg sns).
Proof.
  intros Hd.
  assert (HoI : Silent is_m24 (oneInterval cfg)).
  { unfold oneInterval, layerBlock, intervalBlock, pauseBlock, clearBlock, getLayer, getStatus, getCoords, log.
    rewrite Hd.
    walk Silent_bind ltac:(first [m24_leaf | apply Silent_m24_checkForcePause | apply Silent_m24_onePhoto]). }
  assert (Hl : Silent is_m24 (loop cfg sns)).
  { induction sns as [|sn rest IH]; simpl.
    - apply Silent_ret.
    - apply Silent_bind; [|intros; exact IH].
      unfold tick, sleep, getStatus, log.
      walk Silent_bind ltac:(first [m24_leaf | exact HoI | apply Silent_m24_postProcess]). }
  unfold main_loop. apply Silent_try_kbi; [exact Hl|].
  apply Silent_bind; [apply Silent_emit; reflexivity|]. intros. apply Silent_m24_postProcess.
Qed.

(** ** C8 *)

(** A start-up check that fails ends the script before the loop, with no
    effect on the printer or the camera. *)
Lemma startup_exit_before_loop cfg env sn0 sns sg pf c :
  startup cfg env = Some c ->
  process cfg env sn0 sns sg pf = (Raise (SystemExit c) (init_state sn0 sg pf), []).
Proof. intros H. unfold process. now rewrite H. Qed.

Lemma startup_rejects_pause_yes_detect_pause :
  startup (cfg_with "usb" "pause" "yes" 0 (0, 0)) env_ok = Some 2.
Proof. reflexivity. Qed.

Lemma startup_rejects_movehead_without_pause :
  startup (cfg_with "usb" "layer" "no" 0 (1000, 2000)) env_ok = Some 2.
Proof. reflexivity. Qed.

(** C8 (camera [dslr] is not rejected): [init()] tests ['dlsr' in camera]
    while the accepted choice is ['dslr'], so [-camera dslr] passes
    start-up, the loop runs, the forced pause is sent to the printer, and
    [onePhoto] fails with a [NameError] (exit status 1). *)
Theorem dslr_camera_passes_startup :
  let cfg := cfg_with "dslr" "layer" "yes" 0 (0, 0) in
  let r := process cfg env_ok (snap "idle" 0 0)
             [snap "processing" 0 1; snap "processing" 1 2] None None in
  startup cfg env_ok = None /\
  commands (trace r) = [CGCode "M25"; CGCode "M400"] /\
  (exists s', outcome r = Raise NameError s') /\
  exit_code NameError = 1.
Proof. vm_compute. split; [reflexivity|]. split; [reflexivity|]. split; [eexists; reflexivity|reflexivity]. Qed.

(** ** Assembly happens only on the way out *)

Lemma AsmExit_bind {A B} (m : M A) (k : A -> M B) :
  AsmExit m -> (forall a, AsmExit (k a)) -> AsmExit (bind m k).
Proof.
  unfold AsmExit, trace, outcome. intros H1 H2 s. unfold bind.
  specialize (H1 s). destruct (m s) as [[a s1|e s1] t1]; simpl in *.
  - specialize (H2 a s1). destruct (k a s1) as [r t2]. simpl in *.
    rewrite count_app. intros Hc.
    destruct (count is_assemble t1) eqn:E1.
    + apply H2. simpl in Hc. exact Hc.
    + destruct (H1 ltac:(discriminate)) as [? Habs]. discriminate.
  - intros Hc. destruct (H1 Hc) as [s' E]. injection E as -> ->. eexists; reflexivity.
Qed.

Lemma AsmExit_quiet {A} (m : M A) :
  (forall s, count is_assemble (trace (m s)) = 0%nat) -> AsmExit m.
Proof. intros H s Hc. exfalso. apply Hc, H. Qed.

Lemma AsmExit_quit_gracefully_out cfg s :
  exists s', outcome (quit_gracefully cfg s) = Raise (SystemExit 0) s'.
Proof. eexists. reflexivity. Qed.

Lemma AsmExit_sigpoint cfg : AsmExit (sigpoint cfg).
Proof.
  intros s Hc. unfold sigpoint in *.
  destruct (sig s) as [[|k]|]; [apply AsmExit_quit_gracefully_out| |];
  exfalso; apply Hc; reflexivity.
Qed.

Lemma AsmExit_pcall {A} cfg (f : Snap -> A) : AsmExit (pcall cfg f).
Proof.
  unfold pcall. apply AsmExit_bind; [apply AsmExit_sigpoint|].
  intros _. apply AsmExit_quiet. intros s. destruct (pfail s) as [[|k]|]; reflexivity.
Qed.

Ltac asm_leaf :=
  idtac; lazymatch goal with
  | |- _ (sigpoint _) => apply AsmExit_sigpoint
  | |- _ (pcall _ _) => apply AsmExit_pcall
  | _ => prim ltac:(apply AsmExit_quiet; intros; reflexivity)
  end.

Lemma postProcess_exits cfg s :
  exists s', outcome (postProcess cfg s) = Raise (SystemExit 0) s'.
Proof.
  unfold postProcess, postProcess_with, shell, sigpoint, log, emit, get, raise, bind.
  destruct s as [z f ps tpp ap c [[|[|k]]|] pf]; cbn;
    destruct (String.eqb (vidparms cfg) EmptyString), (String.eqb (extratime cfg) "0");
    cbn; eexists; reflexivity.
Qed.

Lemma AsmExit_postProcess cfg : AsmExit (postProcess cfg).
Proof. intros s _. apply postProcess_exits. Qed.

Lemma AsmExit_oneInterval cfg : AsmExit (oneInterval cfg).
Proof.
  unfold oneInterval, layerBlock, intervalBlock, pauseBlock, clearBlock,
    checkForcePause, unPause, onePhoto, shell, gCode, getLayer, getStatus, getCoords, log.
  walk @AsmExit_bind asm_leaf.
Qed.

Lemma AsmExit_tick cfg sn : AsmExit (tick cfg sn).
Proof.
  unfold tick, sleep, getStatus, log.
  walk @AsmExit_bind ltac:(first [asm_leaf | on_head oneInterval ltac:(apply AsmExit_oneInterval)
                                | on_head postProcess ltac:(apply AsmExit_postProcess)]).
Qed.

Lemma AsmExit_loop cfg sns : AsmExit (loop cfg sns).
Proof.
  induction sns as [|sn rest IH]; simpl.
  - asm_leaf.
  - apply AsmExit_bind; [apply AsmExit_tick | intros; exact IH].
Qed.

Lemma AsmExit_main_loop cfg sns : AsmExit (main_loop cfg sns).
Proof.
  intros s Hc. unfold main_loop, try_kbi in *.
  pose proof (AsmExit_loop cfg sns s) as Hl. unfold trace, outcome in *.
  destruct (loop cfg sns s) as [[a s1|[ | | c | ] s1] t1] eqn:E; simpl in *; auto.
  pose proof (AsmExit_bind _ _ (AsmExit_quiet (log LogCtrlC) (fun _ => eq_refl))
                (fun _ => AsmExit_postProcess cfg) s1) as Hh.
  unfold trace, outcome in Hh.
  destruct ((log LogCtrlC;; postProcess cfg) s1) as [r t2]. simpl in *.
  rewrite count_app in Hc.
  destruct (count is_assemble t1) eqn:E1.
  - apply Hh. exact Hc.
  - destruct (Hl ltac:(discriminate)) as [? Habs]. discriminate.
Qed.

(** ** C7 *)

(** C7 (corrected): a printer call that raises during the run is not
    handled: the loop stops at once, the exception ends the script with
    status 1, and no video is assembled. *)
Theorem printer_error_ends_without_assembly :
  (forall cfg sn rest s e s1 t,
     tick cfg sn s = (Raise e s1, t) -> loop cfg (sn :: rest) s = (Raise e s1, t)) /\
  (forall cfg env sn0 sns sg pf s',
     outcome (process cfg env sn0 sns sg pf) = Raise PrinterError s' ->
     count is_assemble (trace (process cfg env sn0 sns sg pf)) = 0%nat /\
     exit_code PrinterError = 1).
Proof.
  split.
  - intros cfg sn rest s e s1 t H. simpl. now apply bind_raise.
  - intros cfg env sn0 sns sg pf s' H. split; [|reflexivity].
    destruct (Nat.eq_dec (count is_assemble (trace (process cfg env sn0 sns sg pf))) 0)
      as [Z0|NZ]; [exact Z0|exfalso].
    unfold process in *. destruct (startup cfg env).
    + discriminate.
    + destruct (AsmExit_main_loop cfg sns _ NZ) as [s'' E]. rewrite E in H. discriminate.
Qed.

(** C7 does not hold as stated: the printer stops answering while printing,
    and the script dies without assembling. *)
Lemma printer_error_no_assembly_example :
  let r := main_loop (cfg_with "usb" "layer" "no" 0 (0, 0))
             [snap "processing" 1 2; snap "processing" 2 3]
             (set_pfail (Some 0%nat) (printing_state (snap "processing" 0 1))) in
  (exists s', outcome r = Raise PrinterError s') /\ count is_assemble (trace r) = 0%nat.
Proof. vm_compute. split; [eexists; reflexivity | reflexivity]. Qed.

Lemma printer_error_ends_without_assembly_witness :
  let cfg := cfg_with "usb" "layer" "no" 0 (0, 0) in
  let r := process cfg env_ok (snap "idle" 0 0)
             [snap "processing" 1 2; snap "processing" 2 3] None (Some 2%nat) in
  outcome r = Raise PrinterError (final r) /\
  count is_assemble (trace r) = 0%nat /\ exit_code PrinterError = 1.
Proof.
  intros cfg r.
  assert (H : outcome r = Raise PrinterError (final r)) by (vm_compute; reflexivity).
  split; [exact H|].
  exact (proj2 printer_error_ends_without_assembly cfg env_ok _ _ None (Some 2%nat) (final r) H).
Defined.

(** ** The SIGINT handler *)

Lemma quit_gracefully_eq cfg s :
  exists t, quit_gracefully cfg s = (Raise (SystemExit 0) s, t) /\
            count is_assemble t = 1%nat.
Proof.
  unfold quit_gracefully, postProcess_with, log, emit, get, raise, bind.
  destruct (String.eqb (vidparms cfg) EmptyString), (String.eqb (extratime cfg) "0");
    cbn; eexists; split; reflexivity.
Qed.

Lemma postProcess_exits_ps cfg s :
  exists s', outcome (postProcess cfg s) = Raise (SystemExit 0) s' /\
             printerState s' = printerState s.
Proof.
  unfold postProcess, postProcess_with, shell, sigpoint, log, emit, get, raise, bind.
  destruct s as [z f ps tpp ap c [[|[|k]]|] pf]; cbn;
    destruct (String.eqb (vidparms cfg) EmptyString), (String.eqb (extratime cfg) "0");
    cbn; eexists; split; reflexivity.
Qed.

(** *** No [KeyboardInterrupt] *)

Lemma NoKBI_bind {A B} (m : M A) (k : A -> M B) :
  NoKBI m -> (forall a, NoKBI (k a)) -> NoKBI (bind m k).
Proof.
  unfold NoKBI, outcome. intros H1 H2 s s'. unfold bind.
  specialize (H1 s). destruct (m s) as [[a s1|e s1] t1]; simpl in *.
  - specialize (H2 a s1 s'). destruct (k a s1). exact H2.
  - intros E. injection E as -> ->. exact (H1 s' eq_refl).
Qed.

Lemma NoKBI_quiet {A} (m : M A) :
  (forall s, match outcome (m s) with Raise KeyboardInterrupt _ => False | _ => True end) ->
  NoKBI m.
Proof. intros H s s' E. specialize (H s). rewrite E in H. exact H. Qed.

Lemma NoKBI_sigpoint cfg : NoKBI (sigpoint cfg).
Proof.
  intros s s'. unfold sigpoint.
  destruct (sig s) as [[|k]|]; [|discriminate|discriminate].
  destruct (quit_gracefully_eq cfg (set_sig None s)) as [t [-> _]]. discriminate.
Qed.

Lemma NoKBI_pcall {A} cfg (f : Snap -> A) : NoKBI (pcall cfg f).
Proof.
  unfold pcall. apply NoKBI_bind; [apply NoKBI_sigpoint|].
  intros _. apply NoKBI_quiet. intros s. destruct (pfail s) as [[|k]|]; exact I.
Qed.

Lemma NoKBI_postProcess cfg : NoKBI (postProcess cfg).
Proof.
  intros s s'. destruct (postProcess_exits cfg s) as [s'' E]. rewrite E. discriminate.
Qed.

Ltac nokbi_leaf :=
  idtac; lazymatch goal with
  | |- _ (sigpoint _) => apply NoKBI_sigpoint
  | |- _ (pcall _ _) => apply NoKBI_pcall
  | |- _ (postProcess _) => apply NoKBI_postProcess
  | _ => prim ltac:(apply NoKBI_quiet; intros; exact I)
  end.

Lemma NoKBI_oneInterval cfg : NoKBI (oneInterval cfg).
Proof.
  unfold oneInterval, layerBlock, intervalBlock, pauseBlock, clearBlock,
    checkForcePause, unPause, onePhoto, shell, gCode, getLayer, getStatus, getCoords, log.
  walk @NoKBI_bind nokbi_leaf.
Qed.

Lemma NoKBI_loop cfg sns : NoKBI (loop cfg sns).
Proof.
  induction sns as [|sn rest IH]; simpl.
  - nokbi_leaf.
  - apply NoKBI_bind; [|intros; exact IH].
    unfold tick, sleep, getStatus, log.
    walk @NoKBI_bind ltac:(first [nokbi_leaf | on_head oneInterval ltac:(apply NoKBI_oneInterval)]).
Qed.

Lemma try_kbi_id (m h : M unit) s : NoKBI m -> try_kbi m h s = m s.
Proof.
  intros H. unfold try_kbi. specialize (H s). unfold outcome in H.
  destruct (m s) as [[a s1|[ | | c | ] s1] t1]; auto.
  exfalso. exact (H s1 eq_refl).
Qed.

Lemma main_loop_eq cfg sns s : main_loop cfg sns s = loop cfg sns s.
Proof. apply try_kbi_id, NoKBI_loop. Qed.

(** *** A pending SIGINT *)

Lemma SigH_bind {A B} (m : M A) (k : A -> M B) :
  SigH m -> (forall a, SigH (k a)) -> SigH (bind m k).
Proof.
  unfold SigH, SigHat, outcome, trace. intros H1 H2 s Hs. unfold bind.
  specialize (H1 s Hs). destruct (m s) as [[a s1|e s1] t1]; simpl in *.
  - destruct H1 as [Hok _]. destruct (Hok a s1 eq_refl) as [Hs1 C1].
    specialize (H2 a s1 Hs1). destruct (k a s1) as [r t2]; simpl in *.
    destruct H2 as [Ok2 Ra2]. rewrite count_app, C1. split.
    + intros b s' E. exact (Ok2 b s' E).
    + intros e s' E Hn Hp. exact (Ra2 e s' E Hn Hp).
  - destruct H1 as [_ Hra]. split; [intros; discriminate|].
    intros e' s' E. injection E as -> ->. exact (Hra e' s' eq_refl).
Qed.

(** The state [get] returns is the one the rest runs in. *)
Lemma SigH_get_bind {B} (k : St -> M B) :
  (forall s, SigHat (k s) s) -> SigH (bind get k).
Proof.
  intros H s. unfold SigHat. unfold bind, get. specialize (H s). unfold SigHat in H.
  destruct (k s s) as [r t]. simpl. exact H.
Qed.

Lemma SigH_quiet {A} (m : M A) :
  (forall s, count is_assemble (trace (m s)) = 0%nat) ->
  (forall s, sig (final (m s)) = sig s) -> SigH m.
Proof.
  intros C F s Hs. specialize (C s). specialize (F s). unfold final, outcome in *.
  split.
  - intros a s' E. rewrite E in F. rewrite F. auto.
  - intros e s' E Hn. rewrite E in F. congruence.
Qed.

Lemma SigH_sigpoint cfg : SigH (sigpoint cfg).
Proof.
  intros s Hs. unfold sigpoint, outcome, trace.
  destruct (sig s) as [[|k]|]; [| |congruence].
  - destruct (quit_gracefully_eq cfg (set_sig None s)) as [t [-> C]]. cbn.
    split; [intros; discriminate|]. intros e s' E _ _. injection E as <- <-. auto.
  - cbn. split.
    + intros a s' E. injection E as <- <-. split; [discriminate|reflexivity].
    + intros e s' E. discriminate.
Qed.

Lemma SigH_pcall {A} cfg (f : Snap -> A) : SigH (pcall cfg f).
Proof.
  unfold pcall. apply SigH_bind; [apply SigH_sigpoint|].
  intros _. apply SigH_quiet; intros s; destruct (pfail s) as [[|k]|]; reflexivity.
Qed.

(** In the [Finished] phase the assembly ends the script, whatever a
    pending SIGINT does. *)
Lemma SigHat_postProcess_finished cfg s :
  printerState s = 2 -> SigHat (postProcess cfg) s.
Proof.
  intros Hp _. destruct (postProcess_exits_ps cfg s) as [s1 [E P]].
  split; intros until s'; rewrite E; [discriminate|].
  intros F _ Hn. injection F as <- <-. congruence.
Qed.

Ltac sig_leaf :=
  idtac; lazymatch goal with
  | |- _ (sigpoint _) => apply SigH_sigpoint
  | |- _ (pcall _ _) => apply SigH_pcall
  | _ => prim ltac:(apply SigH_quiet; intros; reflexivity)
  end.

Lemma SigH_oneInterval cfg : SigH (oneInterval cfg).
Proof.
  unfold oneInterval, layerBlock, intervalBlock, pauseBlock, clearBlock,
    checkForcePause, unPause, onePhoto, shell, gCode, getLayer, getStatus, getCoords, log.
  walk @SigH_bind sig_leaf.
Qed.

Lemma SigH_tick cfg sn : SigH (tick cfg sn).
Proof.
  unfold tick, sleep, getStatus.
  apply SigH_bind; [walk @SigH_bind sig_leaf|intros _].
  apply SigH_bind; [sig_leaf|intros status].
  apply SigH_get_bind. intros s.
  destruct (printerState s =? 0) eqn:E0.
  { clear E0. revert s. unfold log. walk @SigH_bind ltac:(first [sig_leaf | on_head oneInterval ltac:(apply SigH_oneInterval)]). }
  destruct (printerState s =? 1) eqn:E1.
  { clear E0 E1. revert s. walk @SigH_bind ltac:(first [sig_leaf | on_head oneInterval ltac:(apply SigH_oneInterval)]). }
  destruct (printerState s =? 2) eqn:E2.
  - apply SigHat_postProcess_finished. now apply Z.eqb_eq.
  - clear E0 E1 E2. revert s. change (SigH (@ret unit tt)). sig_leaf.
Qed.

Lemma SigH_loop cfg sns : SigH (loop cfg sns).
Proof.
  induction sns as [|sn rest IH]; simpl.
  - sig_leaf.
  - apply SigH_bind; [apply SigH_tick | intros; exact IH].
Qed.

(** ** C9 *)

(** C9: started with a SIGINT pending (it arrives after [k] more primitive
    operations), if the signal is delivered (the final state has none
    pending) and the phase at that moment, which [quit_gracefully] leaves
    unchanged in the final state, is not [Finished] (printerState 2), the
    run assembles the video exactly once and exits with status 0. *)
Theorem interrupt_assembles_once cfg env sn0 sns k pf :
  let r := process cfg env sn0 sns (Some k) pf in
  sig (final r) = None -> printerState (final r) <> 2 ->
  outcome r = Raise (SystemExit 0) (final r) /\
  count is_assemble (trace r) = 1%nat /\
  exit_code (SystemExit 0) = 0.
Proof.
  intros r Hn Hp. subst r. unfold process in *.
  destruct (startup cfg env) as [c|]; [discriminate|].
  rewrite main_loop_eq in *.
  destruct (SigH_loop cfg sns (init_state sn0 (Some k) pf) ltac:(discriminate)) as [Hok Hra].
  unfold final in *. unfold outcome in Hok, Hra.
  destruct (loop cfg sns (init_state sn0 (Some k) pf)) as [[a s'|e s'] t] eqn:E;
    simpl in *.
  - destruct (Hok a s' eq_refl) as [Hs _]. congruence.
  - destruct (Hra e s' eq_refl Hn Hp) as [-> C]. auto.
Qed.

Lemma interrupt_assembles_once_witness :
  let r := process (cfg_with "usb" "layer" "no" 0 (0, 0)) env_ok (snap "idle" 0 0)
             [snap "processing" 0 1; snap "processing" 1 2; snap "processing" 2 3]
             (Some 3%nat) None in
  sig (final r) = None /\ printerState (final r) = 1 /\
  (outcome r = Raise (SystemExit 0) (final r) /\
   count is_assemble (trace r) = 1%nat /\ exit_code (SystemExit 0) = 0).
Proof.
  intros r.
  assert (Hn : sig (final r) = None) by (vm_compute; reflexivity).
  assert (Hp : printerState (final r) = 1) by (vm_compute; reflexivity).
  split; [exact Hn|]. split; [exact Hp|].
  apply (interrupt_assembles_once _ _ _ _ 3%nat None Hn). vm_compute. discriminate.
Defined.

(** ** What an action leaves unchanged *)

Lemma outcome_bind {A B} (m : M A) (k : A -> M B) s :
  outcome (bind m k s) =
  match outcome (m s) with Ok a s1 => outcome (k a s1) | Raise e s1 => Raise e s1 end.
Proof.
  unfold bind, outcome. destruct (m s) as [[a s1|e s1] t1]; simpl; [|reflexivity].
  destruct (k a s1). reflexivity.
Qed.

Ltac obind :=
  match goal with |- context [outcome (bind ?m ?k ?s)] => rewrite (outcome_bind m k s) end.

Lemma outcome_get_bind {B} (k : St -> M B) s : outcome (bind get k s) = outcome (k s s).
Proof. unfold bind, get, outcome. simpl. destruct (k s s). reflexivity. Qed.

Section PresLemmas.
Context {B : Type} (f : St -> B).
Hypothesis f_sig : forall v s, f (set_sig v s) = f s.
Hypothesis f_pfail : forall v s, f (set_pfail v s) = f s.

Lemma Pres_bind {A C} (m : M A) (k : A -> M C) :
  Pres f m -> (forall a, Pres f (k a)) -> Pres f (bind m k).
Proof.
  unfold Pres, final. intros H1 H2 s. rewrite <- (H1 s).
  change (fst (bind m k s)) with (outcome (bind m k s)).
  rewrite outcome_bind. unfold outcome.
  destruct (fst (m s)) as [a s1|e s1]; [|reflexivity].
  rewrite <- (H2 a s1). reflexivity.
Qed.

Lemma Pres_sigpoint cfg : Pres f (sigpoint cfg).
Proof.
  intros s. unfold sigpoint. destruct (sig s) as [[|k]|].
  - destruct (quit_gracefully_eq cfg (set_sig None s)) as [t [-> _]]. apply f_sig.
  - apply f_sig.
  - reflexivity.
Qed.

Lemma Pres_pcall {A} cfg (g : Snap -> A) : Pres f (pcall cfg g).
Proof.
  unfold pcall. apply Pres_bind; [apply Pres_sigpoint|].
  intros _ s. destruct (pfail s) as [[|k]|]; [reflexivity|apply f_pfail|reflexivity].
Qed.
End PresLemmas.

Ltac pres_leaf :=
  idtac; lazymatch goal with
  | |- _ (sigpoint _) => apply Pres_sigpoint; intros; reflexivity
  | |- _ (pcall _ _) => apply Pres_pcall; intros; reflexivity
  | _ => prim ltac:(intros ?; reflexivity)
  end.

Lemma Pres_ps_oneInterval cfg : Pres printerState (oneInterval cfg).
Proof.
  unfold oneInterval, layerBlock, intervalBlock, pauseBlock, clearBlock,
    checkForcePause, unPause, onePhoto, shell, gCode, getLayer, getStatus, getCoords, log.
  walk @Pres_bind pres_leaf.
Qed.

Lemma Pres_ps_postProcess cfg : Pres printerState (postProcess cfg).
Proof.
  unfold postProcess, postProcess_with, shell, log. walk @Pres_bind pres_leaf.
Qed.

Lemma Pres_ok {B A} (f : St -> B) (m : M A) s a s' :
  Pres f m -> outcome (m s) = Ok a s' -> f s' = f s.
Proof. intros P E. specialize (P s). unfold final in P. unfold outcome in E. now rewrite E in P. Qed.

Lemma Pres_raise {B A} (f : St -> B) (m : M A) s e s' :
  Pres f m -> outcome (m s) = Raise e s' -> f s' = f s.
Proof. intros P E. specialize (P s). unfold final in P. unfold outcome in E. now rewrite E in P. Qed.

(** [time.sleep] moves to the next snapshot and leaves the phase alone. *)
Lemma sleep_out cfg sn s :
  match outcome (sleep cfg sn s) with
  | Ok _ s1 => cur s1 = sn /\ printerState s1 = printerState s
  | Raise _ s1 => printerState s1 = printerState s
  end.
Proof.
  unfold sleep. obind.
  pose proof (Pres_sigpoint printerState (fun _ _ => eq_refl) cfg s) as P1.
  unfold final in P1.
  change (fst (sigpoint cfg s)) with (outcome (sigpoint cfg s)) in P1.
  destruct (outcome (sigpoint cfg s)) as [[] s1|e s1]; [|exact P1].
  cbn. auto.
Qed.

(** [printer.getStatus()] reads the snapshot's status. *)
Lemma getStatus_out cfg s :
  match outcome (getStatus cfg s) with
  | Ok st s1 => st = sn_status (cur s1) /\ cur s1 = cur s /\ printerState s1 = printerState s
  | Raise _ s1 => printerState s1 = printerState s
  end.
Proof.
  unfold getStatus, pcall. obind.
  pose proof (Pres_sigpoint printerState (fun _ _ => eq_refl) cfg s) as P1.
  pose proof (Pres_sigpoint cur (fun _ _ => eq_refl) cfg s) as C1.
  unfold final in P1, C1.
  change (fst (sigpoint cfg s)) with (outcome (sigpoint cfg s)) in P1, C1.
  destruct (outcome (sigpoint cfg s)) as [[] s1|e s1]; [|exact P1].
  cbn. destruct (pfail s1) as [[|k]|]; cbn; auto.
Qed.

(** ** The lifecycle phase *)

Ltac tick_prefix cfg sn s :=
  unfold tick; obind;
  let H1 := fresh "H1" in let s1 := fresh "s1" in
  pose proof (sleep_out cfg sn s) as H1;
  destruct (outcome (sleep cfg sn s)) as [[] s1|? s1];
  [ obind;
    let H2 := fresh "H2" in let s2 := fresh "s2" in
    pose proof (getStatus_out cfg s1) as H2;
    destruct (outcome (getStatus cfg s1)) as [? s2|? s2];
    [ rewrite outcome_get_bind | ]
  | ].

Lemma tick_ok cfg sn s s' :
  outcome (tick cfg sn s) = Ok tt s' ->
  (printerState s = 0 ->
     printerState s' = if str_in "processing" (sn_status sn) then 1 else 0) /\
  (printerState s = 1 ->
     printerState s' = if str_in "idle" (sn_status sn) then 2 else 1) /\
  printerState s <> 2.
Proof.
  tick_prefix cfg sn s; [|discriminate|discriminate].
  destruct H1 as [Hc1 Hp1]. destruct H2 as (-> & Hc2 & Hp2). rewrite Hc2, Hc1.
  destruct (printerState s2 =? 0) eqn:E0; [|destruct (printerState s2 =? 1) eqn:E1;
    [|destruct (printerState s2 =? 2) eqn:E2]].
  - apply Z.eqb_eq in E0. obind.
    assert (H3 : match outcome ((if dontwait cfg then oneInterval cfg else ret tt) s2) with
                 | Ok _ s3 => printerState s3 = printerState s2 | Raise _ _ => True end).
    { destruct (dontwait cfg); [|reflexivity].
      destruct (outcome (oneInterval cfg s2)) as [[] s3|] eqn:E3; [|exact I].
      exact (Pres_ok _ _ _ _ _ (Pres_ps_oneInterval cfg) E3). }
    destruct (outcome ((if dontwait cfg then oneInterval cfg else ret tt) s2)) as [[] s3|];
      [|discriminate].
    destruct (str_in "processing" (sn_status sn)); cbn; intros E; injection E as <-;
      cbn; repeat split; lia.
  - apply Z.eqb_eq in E1. obind.
    destruct (outcome (oneInterval cfg s2)) as [[] s3|] eqn:E3; [|discriminate].
    pose proof (Pres_ok _ _ _ _ _ (Pres_ps_oneInterval cfg) E3) as H3.
    destruct (str_in "idle" (sn_status sn)); cbn; intros E; injection E as <-;
      cbn; repeat split; lia.
  - destruct (postProcess_exits cfg s2) as [s3 E]. rewrite E. discriminate.
  - apply Z.eqb_neq in E0, E1, E2. cbn. intros E; injection E as <-. repeat split; lia.
Qed.

Lemma tick_raise cfg sn s e s' :
  outcome (tick cfg sn s) = Raise e s' -> printerState s' = printerState s.
Proof.
  tick_prefix cfg sn s.
  - destruct H1 as [Hc1 Hp1]. destruct H2 as (_ & _ & Hp2). rewrite <- Hp1, <- Hp2.
    destruct (printerState s2 =? 0); [|destruct (printerState s2 =? 1);
      [|destruct (printerState s2 =? 2)]].
    + obind.
      destruct (outcome ((if dontwait cfg then oneInterval cfg else ret tt) s2))
        as [[] s3|e3 s3] eqn:E3.
      * assert (H3 : printerState s3 = printerState s2).
        { destruct (dontwait cfg);
            [exact (Pres_ok _ _ _ _ _ (Pres_ps_oneInterval cfg) E3)|injection E3 as <-; reflexivity]. }
        destruct (str_in "processing" _); cbn; discriminate.
      * intros E; injection E as <- <-.
        destruct (dontwait cfg);
          [exact (Pres_raise _ _ _ _ _ (Pres_ps_oneInterval cfg) E3)|discriminate].
    + obind.
      destruct (outcome (oneInterval cfg s2)) as [[] s3|e3 s3] eqn:E3.
      * destruct (str_in "idle" _); cbn; discriminate.
      * intros E; injection E as <- <-. exact (Pres_raise _ _ _ _ _ (Pres_ps_oneInterval cfg) E3).
    + intros E. exact (Pres_raise _ _ _ _ _ (Pres_ps_postProcess cfg) E).
    + cbn. discriminate.
  - intros E; injection E as <- <-. destruct H1 as [_ Hp1]. rewrite <- Hp1. exact H2.
  - intros E; injection E as <- <-. exact H1.
Qed.

Lemma tick_finished cfg sn s :
  printerState s = 2 -> sig s = None -> pfail s = None ->
  (exists s', outcome (tick cfg sn s) = Raise (SystemExit 0) s') /\
  count is_assemble (trace (tick cfg sn s)) = 1%nat.
Proof.
  intros Hp Hs Hf. destruct s as [z f ps tpp ap c sg pf]; cbn in Hp, Hs, Hf; subst.
  unfold tick, sleep, getStatus, pcall, sigpoint, postProcess, postProcess_with, shell,
    log, emit, get, modify, raise, bind.
  cbn.
  destruct (String.eqb (vidparms cfg) EmptyString), (String.eqb (extratime cfg) "0");
    cbn; (split; [eexists; reflexivity|reflexivity]).
Qed.

Lemma loop_phase cfg sns s :
  0 <= printerState s <= 2 ->
  printerState s <= printerState (final (loop cfg sns s)) <= 2.
Proof.
  revert s. induction sns as [|sn rest IH]; intros s Hs; simpl.
  - unfold final. simpl. lia.
  - unfold final. change (fst ((tick cfg sn;; loop cfg rest) s))
      with (outcome ((tick cfg sn;; loop cfg rest) s)).
    obind. destruct (outcome (tick cfg sn s)) as [[] s1|e s1] eqn:E.
    + destruct (tick_ok cfg sn s s1 E) as (H0 & H1 & H2).
      assert (Hs1 : printerState s <= printerState s1 <= 2).
      { assert (printerState s = 0 \/ printerState s = 1) as [P|P] by lia.
        - rewrite (H0 P). destruct (str_in "processing" _); lia.
        - rewrite (H1 P). destruct (str_in "idle" _); lia. }
      specialize (IH s1 ltac:(lia)). unfold final in IH.
      change (fst (loop cfg rest s1)) with (outcome (loop cfg rest s1)) in IH. lia.
    + rewrite (tick_raise cfg sn s e s1 E). lia.
Qed.

(** ** C6 *)

(** C6: the phase [printerState] only moves forward.  A tick that returns
    moves [AwaitingPrint] (0) to [Printing] (1) exactly when the status
    reports processing, and [Printing] to [Finished] (2) exactly when it
    reports idle; a tick that raises leaves the phase as it was; no tick in
    [Finished] returns, and without a printer failure or a signal on that
    tick it assembles the video once and exits with status 0.  Over any
    run of the loop the phase never decreases. *)
Theorem lifecycle_forward_only cfg :
  (forall sn s s', outcome (tick cfg sn s) = Ok tt s' ->
     (printerState s = 0 ->
        printerState s' = if str_in "processing" (sn_status sn) then 1 else 0) /\
     (printerState s = 1 ->
        printerState s' = if str_in "idle" (sn_status sn) then 2 else 1) /\
     printerState s <> 2) /\
  (forall sn s e s', outcome (tick cfg sn s) = Raise e s' ->
     printerState s' = printerState s) /\
  (forall sn s, printerState s = 2 -> sig s = None -> pfail s = None ->
     (exists s', outcome (tick cfg sn s) = Raise (SystemExit 0) s') /\
     count is_assemble (trace (tick cfg sn s)) = 1%nat) /\
  (forall sns s, 0 <= printerState s <= 2 ->
     printerState s <= printerState (final (loop cfg sns s)) <= 2).
Proof.
  split; [|split; [|split]].
  - intros sn s s'. apply tick_ok.
  - intros sn s e s'. apply tick_raise.
  - intros sn s. apply tick_finished.
  - intros sns s. apply loop_phase.
Qed.

Lemma lifecycle_forward_only_witness :
  let cfg := cfg_with "usb" "layer" "no" 0 (0, 0) in
  let s := printing_state (snap "processing" 0 1) in
  let sn := snap "idle" 0 2 in
  let s' := final (tick cfg sn s) in
  outcome (tick cfg sn s) = Ok tt s' /\ printerState s' = 2 /\
  ((exists s'', outcome (tick cfg (snap "idle" 0 3) s') = Raise (SystemExit 0) s'') /\
   count is_assemble (trace (tick cfg (snap "idle" 0 3) s')) = 1%nat).
Proof.
  intros cfg s sn s'.
  assert (E : outcome (tick cfg sn s) = Ok tt s') by (vm_compute; reflexivity).
  destruct (lifecycle_forward_only cfg) as (HA & _ & HC & _).
  assert (P : printerState s' = 2).
  { rewrite (proj1 (proj2 (HA sn s s' E)) eq_refl). vm_compute. reflexivity. }
  split; [exact E|]. split; [exact P|].
  apply HC; [exact P | vm_compute; reflexivity | vm_compute; reflexivity].
Defined.

(** ** Frame numbering *)

Lemma zseq_app a n1 n2 :
  zseq a (n1 + n2) = zseq a n1 ++ zseq (a + Z.of_nat n1) n2.
Proof.
  revert a. induction n1 as [|n1 IH]; intros a; simpl.
  - now rewrite Z.add_0_r.
  - rewrite IH. f_equal. f_equal. f_equal. lia.
Qed.

Lemma FrameOK_bind {A B} (m : M A) (k : A -> M B) :
  FrameOK m -> (forall a, FrameOK (k a)) -> FrameOK (bind m k).
Proof.
  unfold FrameOK, trace, outcome. intros H1 H2 s. unfold bind.
  destruct (H1 s) as [n1 [C1 F1]]. destruct (m s) as [[a s1|e s1] t1]; simpl in *.
  - destruct (H2 a s1) as [n2 [C2 F2]]. destruct (k a s1) as [r t2]; simpl in *.
    exists (n1 + n2)%nat. rewrite capture_fns_app, C1, C2, (F1 a s1 eq_refl), zseq_app, map_app.
    split.
    + do 3 f_equal. lia.
    + intros b s' E. rewrite (F2 b s' E), (F1 a s1 eq_refl). lia.
  - exists n1. split; [exact C1|]. intros; discriminate.
Qed.

Lemma NoCap_FrameOK {A} (m : M A) : NoCap m -> FrameOK m.
Proof.
  intros H s. destruct (H s) as [C F]. exists 0%nat. split; [exact C|].
  intros a s' E. rewrite (F a s' E). lia.
Qed.

Lemma NoCap_bind {A B} (m : M A) (k : A -> M B) :
  NoCap m -> (forall a, NoCap (k a)) -> NoCap (bind m k).
Proof.
  unfold NoCap, trace, outcome. intros H1 H2 s. unfold bind.
  destruct (H1 s) as [C1 F1]. destruct (m s) as [[a s1|e s1] t1]; simpl in *.
  - destruct (H2 a s1) as [C2 F2]. destruct (k a s1) as [r t2]; simpl in *.
    rewrite capture_fns_app, C1, C2. split; [reflexivity|].
    intros b s' E. rewrite (F2 b s' E). exact (F1 a s1 eq_refl).
  - split; [exact C1|]. intros; discriminate.
Qed.

Lemma NoCap_quiet {A} (m : M A) :
  (forall s, capture_fns (trace (m s)) = []) ->
  (forall s, frame (final (m s)) = frame s) -> NoCap m.
Proof.
  intros C F s. split; [apply C|]. intros a s' E.
  specialize (F s). unfold final, outcome in *. now rewrite E in F.
Qed.

Lemma NoCap_sigpoint cfg : NoCap (sigpoint cfg).
Proof.
  apply NoCap_quiet; intros s; unfold sigpoint;
    (destruct (sig s) as [[|k]|]; [|reflexivity|reflexivity]).
  - unfold quit_gracefully, postProcess_with, log, emit, get, raise, bind.
    destruct (String.eqb (vidparms cfg) EmptyString), (String.eqb (extratime cfg) "0");
      reflexivity.
  - destruct (quit_gracefully_eq cfg (set_sig None s)) as [t [-> _]]. reflexivity.
Qed.

Lemma NoCap_pcall {A} cfg (f : Snap -> A) : NoCap (pcall cfg f).
Proof.
  unfold pcall. apply NoCap_bind; [apply NoCap_sigpoint|]. intros _.
  apply NoCap_quiet; intros s; destruct (pfail s) as [[|k]|]; reflexivity.
Qed.

Ltac nocap_leaf :=
  idtac; lazymatch goal with
  | |- _ (sigpoint _) => apply NoCap_sigpoint
  | |- _ (pcall _ _) => apply NoCap_pcall
  | _ => prim ltac:(apply NoCap_quiet; intros; reflexivity)
  end.

Lemma NoCap_postProcess cfg : NoCap (postProcess cfg).
Proof. unfold postProcess, postProcess_with, shell, log. walk @NoCap_bind nocap_leaf. Qed.

Lemma NoCap_CapOnce_bind fn {A B} (m : M A) (k : A -> M B) :
  NoCap m -> (forall a, CapOnce fn (k a)) -> CapOnce fn (bind m k).
Proof.
  unfold NoCap, CapOnce, trace, outcome. intros H1 H2 s. unfold bind.
  destruct (H1 s) as [C1 F1]. destruct (m s) as [[a s1|e s1] t1]; simpl in *.
  - destruct (H2 a s1) as [C2 F2]. destruct (k a s1) as [r t2]; simpl in *.
    rewrite capture_fns_app, C1. simpl. split; [exact C2|].
    intros b s' E. destruct (F2 b s' E) as [X Y]. rewrite Y, (F1 a s1 eq_refl). auto.
  - rewrite C1. split; [auto|]. intros; discriminate.
Qed.

Lemma CapOnce_NoCap_bind fn {A B} (m : M A) (k : A -> M B) :
  CapOnce fn m -> (forall a, NoCap (k a)) -> CapOnce fn (bind m k).
Proof.
  unfold NoCap, CapOnce, trace, outcome. intros H1 H2 s. unfold bind.
  destruct (H1 s) as [C1 F1]. destruct (m s) as [[a s1|e s1] t1]; simpl in *.
  - destruct (F1 a s1 eq_refl) as [X Y].
    destruct (H2 a s1) as [C2 F2]. destruct (k a s1) as [r t2]; simpl in *.
    rewrite capture_fns_app, X, C2. split; [auto|].
    intros b s' E. rewrite (F2 b s' E). auto.
  - split; [exact C1|]. intros; discriminate.
Qed.

Lemma CapOnce_capture fn cmd : CapOnce fn (emit (EvCapture fn cmd)).
Proof. intros s. split; [right; reflexivity|]. intros a s' E. injection E as _ <-. auto. Qed.

Lemma CapOnce_slot fn {A} (m : M A) :
  CapOnce fn m -> forall s f0, frame s = f0 + 1 -> fn = slot_name (frame s) ->
  exists n, capture_fns (trace (m s)) = map slot_name (zseq (f0 + 1) n) /\
    (forall a s', outcome (m s) = Ok a s' -> frame s' = f0 + Z.of_nat n).
Proof.
  intros H s f0 Hf Hn. destruct (H s) as [[C|C] F].
  - exists 0%nat. split; [exact C|]. intros a s' E.
    destruct (F a s' E) as [X _]. rewrite C in X. discriminate.
  - exists 1%nat. split; [rewrite C, Hn, Hf; reflexivity|]. intros a s' E.
    destruct (F a s' E) as [_ Y]. rewrite Y, Hf. reflexivity.
Qed.

Lemma FrameOK_onePhoto cfg : FrameOK (onePhoto cfg).
Proof.
  intros s. unfold onePhoto.
  rewrite (bind_ok _ _ s tt (set_frame (frame s + 1) s) [] eq_refl).
  rewrite (bind_ok get _ _ _ _ [] eq_refl). cbn beta iota.
  set (s1 := set_frame (frame s + 1) s).
  destruct (photo_cmd cfg (slot_name (frame s1))) as [cmd|].
  - assert (H : CapOnce (slot_name (frame s1))
      (shell cfg (EvCapture (slot_name (frame s1)) cmd);;
       modify (fun s' => set_timePriorPhoto (now_ s') s'))).
    { unfold shell. apply CapOnce_NoCap_bind;
        [|intros; apply NoCap_quiet; intros; reflexivity].
      apply NoCap_CapOnce_bind; [apply NoCap_sigpoint|]. intros _.
      apply CapOnce_NoCap_bind; [apply CapOnce_capture|]. intros _. apply NoCap_sigpoint. }
    apply (CapOnce_slot _ _ H s1 (frame s)); reflexivity.
  - exists 0%nat. split; [reflexivity|]. intros; discriminate.
Qed.

Ltac frame_leaf :=
  idtac; lazymatch goal with
  | |- _ (onePhoto _) => apply FrameOK_onePhoto
  | |- _ (postProcess _) => apply NoCap_FrameOK, NoCap_postProcess
  | _ => apply NoCap_FrameOK; nocap_leaf
  end.

Lemma FrameOK_oneInterval cfg : FrameOK (oneInterval cfg).
Proof.
  unfold oneInterval, layerBlock, intervalBlock, pauseBlock, clearBlock,
    checkForcePause, unPause, gCode, getLayer, getStatus, getCoords, log.
  walk @FrameOK_bind frame_leaf.
Qed.

Lemma FrameOK_loop cfg sns : FrameOK (loop cfg sns).
Proof.
  induction sns as [|sn rest IH]; simpl.
  - frame_leaf.
  - apply FrameOK_bind; [|intros; exact IH].
    unfold tick, sleep, getStatus, log.
    walk @FrameOK_bind ltac:(first [frame_leaf | on_head oneInterval ltac:(apply FrameOK_oneInterval)]).
Qed.

(** *** Zero-padded names *)

Lemma str_app_nil_r x : (x ++ EmptyString)%string = x.
Proof. induction x as [|c x IH]; simpl; [reflexivity|now rewrite IH]. Qed.

Lemma str_app_assoc x y z : ((x ++ y) ++ z)%string = (x ++ (y ++ z))%string.
Proof. induction x as [|c x IH]; simpl; [reflexivity|now rewrite IH]. Qed.

Lemma str_length_app x y : String.length (x ++ y) = (String.length x + String.length y)%nat.
Proof. induction x as [|c x IH]; simpl; [reflexivity|now rewrite IH]. Qed.

Lemma sola_app l1 l2 :
  string_of_list_ascii (l1 ++ l2) = (string_of_list_ascii l1 ++ string_of_list_ascii l2)%string.
Proof. induction l1 as [|c l IH]; simpl; [reflexivity|now rewrite IH]. Qed.

Lemma sola_length l : String.length (string_of_list_ascii l) = List.length l.
Proof. induction l as [|c l IH]; simpl; [reflexivity|now rewrite IH]. Qed.

Lemma zeros_snoc k : (zeros k ++ String "0" EmptyString)%string = String "0" (zeros k).
Proof. induction k as [|k IH]; simpl; [reflexivity|now rewrite IH]. Qed.

Lemma digits_rev_0 f : digits_rev f 0 = [].
Proof. destruct f; reflexivity. Qed.

Lemma pow10_S k : 10 ^ Z.of_nat (S k) = 10 * 10 ^ Z.of_nat k.
Proof. rewrite Nat2Z.inj_succ, Z.pow_succ_r; lia. Qed.

Lemma pow10_pos k : 0 < 10 ^ Z.of_nat k.
Proof. apply Z.pow_pos_nonneg; lia. Qed.

Lemma fixed_digits f n :
  0 <= n < 10 ^ Z.of_nat f ->
  fixed f n = (zeros (f - List.length (digits_rev f n))
               ++ string_of_list_ascii (rev (digits_rev f n)))%string.
Proof.
  revert n. induction f as [|f IH]; intros n Hn.
  - reflexivity.
  - rewrite pow10_S in Hn. simpl fixed. simpl digits_rev.
    destruct (n <=? 0) eqn:E.
    + assert (n = 0) by (apply Z.leb_le in E; lia). subst n.
      change (0 / 10) with 0. change (0 mod 10) with 0.
      rewrite IH by (pose proof (pow10_pos f); lia).
      rewrite digits_rev_0. simpl. rewrite Nat.sub_0_r, !str_app_nil_r.
      apply zeros_snoc.
    + apply Z.leb_gt in E.
      assert (Hq : 0 <= n / 10 < 10 ^ Z.of_nat f).
      { split; [apply Z.div_pos; lia|]. apply Z.div_lt_upper_bound; lia. }
      rewrite (IH (n / 10) Hq). simpl. rewrite sola_app, str_app_assoc. reflexivity.
Qed.

Lemma digits_rev_fuel f1 f2 n :
  0 <= n < 10 ^ Z.of_nat f1 -> (f1 <= f2)%nat -> digits_rev f2 n = digits_rev f1 n.
Proof.
  revert f2 n. induction f1 as [|f1 IH]; intros f2 n Hn Hf.
  - simpl in Hn. assert (n = 0) by lia. subst. now rewrite !digits_rev_0.
  - destruct f2 as [|f2]; [lia|]. rewrite pow10_S in Hn. simpl.
    destruct (n <=? 0); [reflexivity|]. f_equal. apply IH; [|lia].
    split; [apply Z.div_pos; lia|]. apply Z.div_lt_upper_bound; lia.
Qed.

Lemma fmt08_fixed n : 0 <= n < 10 ^ 8 -> fmt08 n = fixed 8 n.
Proof.
  intros Hn. unfold fmt08.
  replace (n <? 0) with false by (symmetry; apply Z.ltb_ge; lia).
  unfold zfill, dec. destruct (n =? 0) eqn:E.
  - apply Z.eqb_eq in E. subst. reflexivity.
  - apply Z.eqb_neq in E.
    set (g := S (Z.to_nat (Z.log2 n))).
    assert (Hg : n < 10 ^ Z.of_nat g).
    { destruct (Z.log2_spec n ltac:(lia)) as [_ H2].
      pose proof (Z.log2_nonneg n).
      assert (Z.of_nat g = Z.succ (Z.log2 n)) as -> by (unfold g; lia).
      eapply Z.lt_le_trans; [exact H2|]. apply Z.pow_le_mono_l; lia. }
    set (d := Nat.min 8 g).
    assert (Hd : 0 <= n < 10 ^ Z.of_nat d).
    { unfold d. destruct (Nat.min_spec 8 g) as [[_ ->]|[_ ->]]; [exact Hn|lia]. }
    rewrite (digits_rev_fuel d g n Hd (Nat.le_min_r _ _)).
    rewrite <- (digits_rev_fuel d 8 n Hd (Nat.le_min_l _ _)).
    rewrite sola_length, length_rev. symmetry. apply fixed_digits. exact Hn.
Qed.

Lemma ascii_compare_refl a : Ascii.compare a a = Eq.
Proof. unfold Ascii.compare. apply N.compare_refl. Qed.

Lemma compare_app_same p x y : String.compare (p ++ x) (p ++ y) = String.compare x y.
Proof. induction p as [|c p IH]; simpl; [reflexivity|]. now rewrite ascii_compare_refl. Qed.

Lemma compare_app_lt x y u v :
  String.length x = String.length y -> String.compare x y = Lt ->
  String.compare (x ++ u) (y ++ v) = Lt.
Proof.
  revert y. induction x as [|c x IH]; intros [|d y] L C; simpl in *; try discriminate.
  destruct (Ascii.compare c d); try discriminate; [|reflexivity].
  apply IH; [lia|exact C].
Qed.

Lemma fixed_length k n : String.length (fixed k n) = k.
Proof.
  revert n. induction k as [|k IH]; intros n; simpl; [reflexivity|].
  rewrite str_length_app, IH. simpl. lia.
Qed.

Lemma digit_lt x y : 0 <= x < y -> y < 10 -> Ascii.compare (digit x) (digit y) = Lt.
Proof.
  intros H1 H2. unfold Ascii.compare, digit, ascii_of_nat.
  rewrite !N_ascii_embedding by lia.
  rewrite <- N2Z.inj_compare, !nat_N_Z. apply Z.compare_lt_iff. lia.
Qed.

Lemma fixed_lt k a b : 0 <= a < b -> b < 10 ^ Z.of_nat k ->
  String.compare (fixed k a) (fixed k b) = Lt.
Proof.
  revert a b. induction k as [|k IH]; intros a b Hab Hb.
  - simpl in Hb. lia.
  - rewrite pow10_S in Hb. simpl.
    assert (Hq : a / 10 <= b / 10) by (apply Z.div_le_mono; lia).
    destruct (Z.eq_dec (a / 10) (b / 10)) as [Eq|Ne].
    + rewrite Eq, compare_app_same. cbn [String.compare].
      rewrite digit_lt; [reflexivity| |].
      * pose proof (Z.div_mod a 10). pose proof (Z.div_mod b 10).
        pose proof (Z.mod_pos_bound a 10). pose proof (Z.mod_pos_bound b 10). lia.
      * pose proof (Z.mod_pos_bound b 10). lia.
    + apply compare_app_lt; [now rewrite !fixed_length|].
      apply IH; [split; [apply Z.div_pos|]; lia|].
      apply Z.div_lt_upper_bound; lia.
Qed.

(** Below [10^8] the slot names sort as their numbers. *)
Lemma slot_name_lt a b : 0 <= a < b -> b < 10 ^ 8 ->
  String.compare (slot_name a) (slot_name b) = Lt.
Proof.
  intros Hab Hb. unfold slot_name.
  rewrite !fmt08_fixed by lia. rewrite compare_app_same.
  apply compare_app_lt; [now rewrite !fixed_length|]. apply fixed_lt; [lia|exact Hb].
Qed.

Lemma nth_slots a n i :
  (i < n)%nat -> nth i (map slot_name (zseq a n)) EmptyString = slot_name (a + Z.of_nat i).
Proof.
  revert a i. induction n as [|n IH]; intros a i Hi; [lia|].
  destruct i as [|i]; simpl.
  - now rewrite Z.add_0_r.
  - rewrite IH by lia. f_equal. lia.
Qed.

(** ** C5 *)

(** C5 (corrected): the counter starts at 0 and each capture invocation
    takes the next slot, so the captures of a run are the slots 1, 2, ...,
    n in order and a run that returns has [frame = n]; the outcome of the
    capture command is not looked at.  The slot names sort
    lexicographically in capture order as long as fewer than 10^8 frames
    have been taken ([{0:08d}] pads to at least 8 digits, not exactly 8). *)
Theorem frame_slots_in_order cfg env sn0 sns sg pf :
  let r := process cfg env sn0 sns sg pf in
  let caps := capture_fns (trace r) in
  frame (init_state sn0 sg pf) = 0 /\
  exists n, caps = map slot_name (zseq 1 n) /\
    (forall s', outcome r = Ok tt s' -> frame s' = Z.of_nat n) /\
    (Z.of_nat n < 10 ^ 8 -> forall i j, (i < j < n)%nat ->
       String.compare (nth i caps EmptyString) (nth j caps EmptyString) = Lt).
Proof.
  intros r caps. split; [reflexivity|].
  assert (H : exists n, caps = map slot_name (zseq 1 n) /\
                (forall s', outcome r = Ok tt s' -> frame s' = Z.of_nat n)).
  { subst r caps. unfold process. destruct (startup cfg env) as [c|].
    - exists 0%nat. split; [reflexivity|]. intros; discriminate.
    - rewrite main_loop_eq.
      destruct (FrameOK_loop cfg sns (init_state sn0 sg pf)) as [n [C F]].
      exists n. split; [exact C|]. intros s' E. exact (F tt s' E). }
  destruct H as [n [C F]]. exists n. split; [exact C|]. split; [exact F|].
  intros Hn i j Hij. rewrite C, !nth_slots by lia. apply slot_name_lt; lia.
Qed.

Lemma frame_slots_in_order_witness :
  let r := process (cfg_with "usb" "layer" "no" 0 (0, 0)) env_ok (snap "idle" 0 0)
             [snap "processing" 0 1; snap "processing" 1 2; snap "processing" 2 3]
             None None in
  outcome r = Ok tt (final r) /\ frame (final r) = 2 /\
  String.compare (nth 0 (capture_fns (trace r)) EmptyString)
                 (nth 1 (capture_fns (trace r)) EmptyString) = Lt.
Proof.
  intros r.
  assert (E : outcome r = Ok tt (final r)) by (vm_compute; reflexivity).
  assert (Hr : frame (final r) = 2) by (vm_compute; reflexivity).
  split; [exact E|]. split; [exact Hr|].
  destruct (frame_slots_in_order (cfg_with "usb" "layer" "no" 0 (0, 0)) env_ok (snap "idle" 0 0)
              [snap "processing" 0 1; snap "processing" 1 2; snap "processing" 2 3] None None)
    as [_ [n [_ [Hf Hlex]]]].
  pose proof (Hf _ E) as Hn. rewrite Hr in Hn.
  apply Hlex; lia.
Defined.

(** C5 does not hold as stated: the 10^8-th frame gets a 9-digit name, which
    sorts before the 8-digit name of the frame captured just before it. *)
Lemma slot_names_out_of_order_at_1e8 :
  let cfg := cfg_with "usb" "layer" "no" 0 (0, 0) in
  let s := set_frame 99999998 (printing_state (snap "processing" 0 1)) in
  let caps := capture_fns (trace (loop cfg [snap "processing" 1 2; snap "processing" 2 3] s)) in
  caps = ["/tmp/DuetLapse/IMG99999999.jpeg"; "/tmp/DuetLapse/IMG100000000.jpeg"] /\
  String.compare (nth 0 caps EmptyString) (nth 1 caps EmptyString) = Gt.
Proof. vm_compute. split; reflexivity. Qed.

(** ** Interval captures *)

Lemma bind_get_eq {B} (k : St -> M B) s : bind get k s = k s s.
Proof. unfold bind, get. destruct (k s s). reflexivity. Qed.

Lemma bind_emit {B} e (k : unit -> M B) s :
  bind (emit e) k s = (fst (k tt s), (now_ s, e) :: snd (k tt s)).
Proof. unfold bind, emit. destruct (k tt s). reflexivity. Qed.

Lemma itimes_app t1 t2 : itimes (t1 ++ t2) = itimes t1 ++ itimes t2.
Proof. unfold itimes. apply flat_map_app. Qed.

Lemma itimes_silent t : count is_interval t = 0%nat -> itimes t = [].
Proof.
  induction t as [|[x e] t IH]; intros H; [reflexivity|].
  destruct e as [c|fn cmd|fn cmd|[]]; cbn in *; (discriminate || exact (IH H)).
Qed.

Lemma itimes_interval x fr elap t :
  itimes ((x, EvLog (LogIntervalCapture fr elap)) :: t) = x :: itimes t.
Proof. reflexivity. Qed.

Lemma lastZ_app lo l1 l2 : lastZ lo (l1 ++ l2) = lastZ (lastZ lo l1) l2.
Proof. revert lo. induction l1 as [|x l1 IH]; intros lo; [reflexivity|]. apply IH. Qed.

Lemma spaced_app gap lo l1 l2 :
  spaced gap lo l1 -> spaced gap (lastZ lo l1) l2 -> spaced gap lo (l1 ++ l2).
Proof.
  revert lo. induction l1 as [|x l1 IH]; intros lo H1 H2; [exact H2|].
  destruct H1 as [Hx H1]. split; [exact Hx|]. exact (IH x H1 H2).
Qed.

Section IntervalSilent.

Lemma Silent_iv_sigpoint cfg : Silent is_interval (sigpoint cfg).
Proof.
  intros s. unfold sigpoint. destruct (sig s) as [[|k]|]; [|reflexivity|reflexivity].
  unfold quit_gracefully, postProcess_with, log, emit, get, raise, bind.
  destruct (String.eqb (vidparms cfg) EmptyString), (String.eqb (extratime cfg) "0");
    reflexivity.
Qed.

Lemma Silent_iv_pcall {A} cfg (f : Snap -> A) : Silent is_interval (pcall cfg f).
Proof.
  unfold pcall. apply Silent_bind; [apply Silent_iv_sigpoint|].
  intros _ s. destruct (pfail s) as [[|k]|]; reflexivity.
Qed.

End IntervalSilent.

Ltac iv_leaf :=
  idtac; lazymatch goal with
  | |- _ (sigpoint _) => apply Silent_iv_sigpoint
  | |- _ (pcall _ _) => apply Silent_iv_pcall
  | _ => prim ltac:(intros ?; reflexivity)
  end.

Lemma Silent_iv_checkForcePause cfg : Silent is_interval (checkForcePause cfg).
Proof. unfold checkForcePause, gCode, log. walk @Silent_bind iv_leaf. Qed.

Lemma Silent_iv_onePhoto cfg : Silent is_interval (onePhoto cfg).
Proof. unfold onePhoto, shell. walk @Silent_bind iv_leaf. Qed.

Lemma Silent_iv_sleep cfg sn : Silent is_interval (sleep cfg sn).
Proof. unfold sleep. walk @Silent_bind iv_leaf. Qed.

Lemma Pres_tpp_checkForcePause cfg : Pres timePriorPhoto (checkForcePause cfg).
Proof. unfold checkForcePause, gCode, log. walk @Pres_bind pres_leaf. Qed.

Lemma Pres_now_checkForcePause cfg : Pres now_ (checkForcePause cfg).
Proof. unfold checkForcePause, gCode, log. walk @Pres_bind pres_leaf. Qed.

Lemma Pres_tpp_sleep cfg sn : Pres timePriorPhoto (sleep cfg sn).
Proof. unfold sleep. walk @Pres_bind pres_leaf. Qed.

Lemma Pres_now_shell cfg e : Pres now_ (shell cfg e).
Proof. unfold shell. walk @Pres_bind pres_leaf. Qed.

(** [onePhoto] stamps [timePriorPhoto] with the clock when it returns. *)
Lemma onePhoto_stamp cfg s a s' :
  outcome (onePhoto cfg s) = Ok a s' -> timePriorPhoto s' = now_ s' /\ now_ s' = now_ s.
Proof.
  unfold onePhoto. obind. cbn [outcome modify fst]. rewrite outcome_get_bind.
  set (s1 := set_frame (frame s + 1) s).
  destruct (photo_cmd cfg (slot_name (frame s1))) as [cmd|]; [|discriminate].
  obind. destruct (outcome (shell cfg (EvCapture (slot_name (frame s1)) cmd) s1))
    as [[] s2|e s2] eqn:E; [|discriminate].
  pose proof (Pres_ok _ _ _ _ _ (Pres_now_shell cfg _) E) as N.
  cbn [outcome modify fst]. intros H. injection H as _ <-. split; [reflexivity|].
  exact N.
Qed.

Lemma GapOK_bind gap {A B} (m : M A) (k : A -> M B) :
  GapOK gap m -> (forall a, GapOK gap (k a)) -> GapOK gap (bind m k).
Proof.
  unfold GapOK, trace, outcome. intros H1 H2 s lo Hi. unfold bind.
  destruct (H1 s lo Hi) as [G1 F1]. destruct (m s) as [[a s1|e s1] t1]; cbn in *.
  - destruct (F1 a s1 eq_refl) as [I1 N1].
    destruct (H2 a s1 _ I1) as [G2 F2]. destruct (k a s1) as [r t2]; cbn in *.
    rewrite itimes_app, lastZ_app. split; [apply spaced_app; assumption|].
    intros b s' E. destruct (F2 b s' E) as [I2 N2]. split; [exact I2|congruence].
  - split; [exact G1|]. intros; discriminate.
Qed.

Lemma GapOK_quiet gap {A} (m : M A) :
  Silent is_interval m -> Pres timePriorPhoto m -> Pres now_ m -> GapOK gap m.
Proof.
  intros Hs Ht Hn s lo Hi. rewrite (itimes_silent _ (Hs s)). split; [exact I|].
  intros a s' E. cbn [lastZ]. unfold TimeInv in *.
  rewrite (Pres_ok _ _ _ _ _ Ht E), (Pres_ok _ _ _ _ _ Hn E). split; [exact Hi|reflexivity].
Qed.

Lemma GapOK_sigpoint gap cfg : GapOK gap (sigpoint cfg).
Proof.
  apply GapOK_quiet; [apply Silent_iv_sigpoint | |]; apply Pres_sigpoint; intros; reflexivity.
Qed.

Lemma GapOK_pcall gap {A} cfg (f : Snap -> A) : GapOK gap (pcall cfg f).
Proof.
  apply GapOK_quiet; [apply Silent_iv_pcall | |]; apply Pres_pcall; intros; reflexivity.
Qed.

Lemma GapOK_checkForcePause gap cfg : GapOK gap (checkForcePause cfg).
Proof.
  apply GapOK_quiet;
    [apply Silent_iv_checkForcePause | apply Pres_tpp_checkForcePause | apply Pres_now_checkForcePause].
Qed.

Lemma GapOK_onePhoto gap cfg : GapOK gap (onePhoto cfg).
Proof.
  intros s lo Hi. rewrite (itimes_silent _ (Silent_iv_onePhoto cfg s)). split; [exact I|].
  intros a s' E. destruct (onePhoto_stamp cfg s a s' E) as [T N].
  unfold TimeInv in *. cbn [lastZ]. rewrite T, N. split; [lia|reflexivity].
Qed.

(** The interval trigger: a capture is logged at the clock time, which is
    more than [seconds] after [timePriorPhoto]. *)
Lemma GapOK_intervalBlock cfg : GapOK (seconds cfg) (intervalBlock cfg).
Proof.
  intros s lo Hi. unfold intervalBlock. rewrite bind_get_eq. cbv beta.
  destruct (negb (seconds cfg =? 0) && (seconds cfg <? now_ s - timePriorPhoto s)) eqn:Ef.
  2: { cbn. split; [exact I|]. intros a s' E. injection E as _ <-. auto. }
  apply andb_true_iff in Ef as [_ Ef]. apply Z.ltb_lt in Ef.
  pose proof (Silent_iv_checkForcePause cfg s) as Hs.
  pose proof (Pres_tpp_checkForcePause cfg s) as Ht.
  pose proof (Pres_now_checkForcePause cfg s) as Hn.
  unfold Silent, trace, final in Hs, Ht, Hn.
  destruct (checkForcePause cfg s) as [[[] s1|e s1] t1] eqn:Ec; cbn [fst snd] in Hs, Ht, Hn.
  2: { rewrite (bind_raise _ _ _ _ _ _ Ec). unfold trace, outcome. cbn [fst snd].
       rewrite (itimes_silent _ Hs). split; [exact I|discriminate]. }
  rewrite (bind_ok _ _ _ _ _ _ Ec). cbv beta. rewrite bind_get_eq. unfold log.
  rewrite bind_emit. unfold trace, outcome. cbn [fst snd].
  rewrite itimes_app, (itimes_silent _ Hs), itimes_interval.
  pose proof (Silent_iv_onePhoto cfg s1) as Hs1. unfold Silent, trace in Hs1.
  rewrite (itimes_silent _ Hs1). cbn [app spaced lastZ].
  unfold TimeInv in Hi. split; [split; [lia|exact I]|].
  intros a s' E. destruct (onePhoto_stamp cfg s1 a s' E) as [T N].
  unfold TimeInv. rewrite T, N, Hn. split; [lia|reflexivity].
Qed.

Lemma GapOK_postProcess gap cfg : GapOK gap (postProcess cfg).
Proof.
  unfold postProcess, postProcess_with, shell, log.
  walk @GapOK_bind ltac:(idtac; lazymatch goal with
    | |- GapOK _ (sigpoint _) => apply GapOK_sigpoint
    | _ => prim ltac:(apply GapOK_quiet; intros ?; reflexivity)
    end).
Qed.

Ltac gap_leaf :=
  idtac; lazymatch goal with
  | |- GapOK _ (sigpoint _) => apply GapOK_sigpoint
  | |- GapOK _ (pcall _ _) => apply GapOK_pcall
  | |- GapOK _ (checkForcePause _) => apply GapOK_checkForcePause
  | |- GapOK _ (onePhoto _) => apply GapOK_onePhoto
  | |- GapOK _ (intervalBlock _) => apply GapOK_intervalBlock
  | |- GapOK _ (postProcess _) => apply GapOK_postProcess
  | _ => prim ltac:(apply GapOK_quiet; intros ?; reflexivity)
  end.

Lemma GapOK_oneInterval cfg : GapOK (seconds cfg) (oneInterval cfg).
Proof.
  unfold oneInterval, layerBlock, pauseBlock, clearBlock, unPause, gCode,
    getLayer, getStatus, getCoords, log.
  walk @GapOK_bind gap_leaf.
Qed.

Lemma tick_gap cfg sn s lo :
  TimeInv lo s -> now_ s <= sn_now sn ->
  spaced (seconds cfg) lo (itimes (trace (tick cfg sn s))) /\
  (forall a s', outcome (tick cfg sn s) = Ok a s' ->
     TimeInv (lastZ lo (itimes (trace (tick cfg sn s)))) s' /\ now_ s' = sn_now sn).
Proof.
  intros Hi Hle. unfold tick.
  match goal with |- context [bind (sleep cfg sn) ?k] =>
    assert (Hb : forall u, GapOK (seconds cfg) (k u)) end.
  { intros u. cbv beta. unfold getStatus, log.
    walk @GapOK_bind ltac:(first [gap_leaf | on_head oneInterval ltac:(apply GapOK_oneInterval)]). }
  pose proof (sleep_out cfg sn s) as Hc.
  pose proof (Silent_iv_sleep cfg sn s) as Hs.
  pose proof (Pres_tpp_sleep cfg sn s) as Ht.
  unfold Silent, trace, final, outcome in Hs, Ht, Hc.
  destruct (sleep cfg sn s) as [[[] s1|e s1] t1] eqn:Es; cbn [fst snd] in Hs, Ht, Hc.
  - rewrite (bind_ok _ _ _ _ _ _ Es). unfold trace, outcome. cbn [fst snd].
    rewrite itimes_app, (itimes_silent _ Hs). cbn [app lastZ].
    destruct Hc as [Hc _].
    assert (Hi1 : TimeInv lo s1).
    { unfold TimeInv, now_ in *. rewrite Ht, Hc. lia. }
    destruct (Hb tt s1 lo Hi1) as [G F]. split; [exact G|].
    intros a s' E. destruct (F a s' E) as [I N]. split; [exact I|].
    rewrite N. unfold now_. rewrite Hc. reflexivity.
  - rewrite (bind_raise _ _ _ _ _ _ Es). unfold trace, outcome. cbn [fst snd].
    rewrite (itimes_silent _ Hs). split; [exact I|discriminate].
Qed.

Lemma loop_gap cfg sns s lo :
  TimeInv lo s -> nondecr (now_ s) sns ->
  spaced (seconds cfg) lo (itimes (trace (loop cfg sns s))).
Proof.
  revert s lo. induction sns as [|sn rest IH]; intros s lo Hi Hm; [exact I|].
  destruct Hm as [Hle Hm]. cbn [loop].
  destruct (tick_gap cfg sn s lo Hi Hle) as [G F]. unfold trace, outcome in G, F.
  destruct (tick cfg sn s) as [[[] s1|e s1] t1] eqn:Et; cbn [fst snd] in G, F.
  - rewrite (bind_ok _ _ _ _ _ _ Et). unfold trace. cbn [snd].
    rewrite itimes_app. apply spaced_app; [exact G|].
    destruct (F tt s1 eq_refl) as [I N]. apply IH; [exact I|]. rewrite N. exact Hm.
  - rewrite (bind_raise _ _ _ _ _ _ Et). exact G.
Qed.

Lemma checkForcePause_clean cfg s :
  sig s = None -> pfail s = None ->
  exists s1 t1, checkForcePause cfg s = (Ok tt s1, t1) /\
    sig s1 = None /\ pfail s1 = None /\ count is_interval t1 = 0%nat /\
    count is_capture t1 = 0%nat.
Proof.
  intros Hs Hp. destruct s as [z f ps tpp ap c sg pf]; cbn in Hs, Hp; subst.
  unfold checkForcePause, gCode, pcall, sigpoint, log, emit, get, modify, ret, bind.
  cbn. destruct ap; cbn; [eexists _, _; repeat split; reflexivity|].
  destruct (str_in "yes" (pause cfg)); cbn; [|eexists _, _; repeat split; reflexivity].
  destruct (movehead_zero cfg); cbn; eexists _, _; repeat split; reflexivity.
Qed.

Lemma intervalBlock_fires cfg s :
  sig s = None -> pfail s = None ->
  count is_interval (trace (intervalBlock cfg s)) =
  if negb (seconds cfg =? 0) && (seconds cfg <? now_ s - timePriorPhoto s) then 1%nat else 0%nat.
Proof.
  intros Hs Hp. unfold intervalBlock. rewrite bind_get_eq. cbv beta.
  destruct (negb (seconds cfg =? 0) && (seconds cfg <? now_ s - timePriorPhoto s));
    [|reflexivity].
  destruct (checkForcePause_clean cfg s Hs Hp) as (s1 & t1 & E & _ & _ & C & _).
  rewrite (bind_ok _ _ _ _ _ _ E). cbv beta. rewrite bind_get_eq. unfold log.
  rewrite bind_emit. unfold trace. cbn [snd]. rewrite count_app, C.
  pose proof (Silent_iv_onePhoto cfg s1) as H. unfold Silent, trace in H.
  change (count is_interval (_ :: ?t)) with (S (count is_interval t)). rewrite H. reflexivity.
Qed.

Lemma onePhoto_clean cfg s :
  sig s = None -> camera_ok cfg = true -> count is_capture (trace (onePhoto cfg s)) = 1%nat.
Proof.
  intros Hs Hc. destruct (photo_cmd_some cfg (slot_name (frame s + 1)) Hc) as [cmd Ecmd].
  destruct s as [z f ps tpp ap c sg pf]; cbn [sig] in Hs; cbn [frame] in Ecmd; subst.
  unfold onePhoto.
  set (s := mkSt z f ps tpp ap c None pf).
  rewrite (bind_ok _ _ s tt (set_frame (f + 1) s) [] eq_refl).
  rewrite (bind_ok get _ _ _ _ [] eq_refl). cbn beta iota. cbn [frame set_frame].
  rewrite Ecmd. reflexivity.
Qed.

Lemma intervalBlock_captures cfg s :
  sig s = None -> pfail s = None -> camera_ok cfg = true ->
  count is_capture (trace (intervalBlock cfg s)) =
  if negb (seconds cfg =? 0) && (seconds cfg <? now_ s - timePriorPhoto s) then 1%nat else 0%nat.
Proof.
  intros Hs Hp Hc. unfold intervalBlock. rewrite bind_get_eq. cbv beta.
  destruct (negb (seconds cfg =? 0) && (seconds cfg <? now_ s - timePriorPhoto s));
    [|reflexivity].
  destruct (checkForcePause_clean cfg s Hs Hp) as (s1 & t1 & E & Hs1 & _ & _ & C).
  rewrite (bind_ok _ _ _ _ _ _ E). cbv beta. rewrite bind_get_eq. unfold log.
  rewrite bind_emit. unfold trace. cbn [snd]. rewrite count_app, C.
  change (count is_capture (_ :: ?t)) with (count is_capture t).
  pose proof (onePhoto_clean cfg s1 Hs1 Hc) as H. unfold trace in H. rewrite H. reflexivity.
Qed.

(** ** C4 *)

(** C4 (corrected): the interval check of [oneInterval] reads neither the
    trigger mode nor anything but [seconds], the clock and
    [timePriorPhoto]: with [seconds] nonzero it fires (logs the interval
    capture and, for a camera with a capture command, captures once)
    exactly when the time since the last photo of any trigger is strictly
    greater than [seconds] (stated for a check reached with no printer
    failure or signal).  Over a whole run whose clock readings never go
    back, each interval-triggered capture comes more than [seconds] after
    the one before it, the first more than [seconds] after the start. *)
Theorem interval_trigger_strict cfg :
  (forall s, sig s = None -> pfail s = None ->
     count is_interval (trace (intervalBlock cfg s)) =
       (if negb (seconds cfg =? 0) && (seconds cfg <? now_ s - timePriorPhoto s)
        then 1%nat else 0%nat) /\
     (camera_ok cfg = true ->
      count is_capture (trace (intervalBlock cfg s)) =
       (if negb (seconds cfg =? 0) && (seconds cfg <? now_ s - timePriorPhoto s)
        then 1%nat else 0%nat))) /\
  (forall env sn0 sns sg pf, nondecr (sn_now sn0) sns ->
     spaced (seconds cfg) (sn_now sn0) (itimes (trace (process cfg env sn0 sns sg pf)))).
Proof.
  split.
  - intros s Hs Hp. split; [apply intervalBlock_fires; assumption|].
    intros Hc. apply intervalBlock_captures; assumption.
  - intros env sn0 sns sg pf Hm. unfold process.
    destruct (startup cfg env) as [c|]; [exact I|].
    unfold trace. rewrite main_loop_eq.
    apply loop_gap; [|exact Hm]. unfold TimeInv, now_. cbn. lia.
Qed.

Lemma interval_trigger_strict_witness :
  let cfg := cfg_with "usb" "layer" "no" 5 (0, 0) in
  let s := set_cur (snap "processing" 0 106) (printing_state (snap "processing" 0 100)) in
  let sns := [snap "processing" 0 1; snap "processing" 0 4; snap "processing" 0 7;
              snap "processing" 0 10; snap "processing" 0 13; snap "processing" 0 16] in
  let r := process cfg env_ok (snap "idle" 0 0) sns None None in
  count is_capture (trace (intervalBlock cfg s)) = 1%nat /\
  itimes (trace r) = [10; 16] /\ spaced 5 0 (itimes (trace r)).
Proof.
  intros cfg s sns r.
  destruct (interval_trigger_strict cfg) as [HA HB].
  split; [|split].
  - destruct (HA s eq_refl eq_refl) as [_ H]. rewrite (H eq_refl). vm_compute. reflexivity.
  - vm_compute. reflexivity.
  - apply (HB env_ok (snap "idle" 0 0) sns None None). vm_compute. repeat split; discriminate.
Defined.

(** C4 does not hold as stated: when the time since the last photo equals
    [seconds] the interval trigger does not fire. *)
Lemma interval_not_at_equal_elapsed :
  let cfg := cfg_with "usb" "layer" "no" 5 (0, 0) in
  let s := set_cur (snap "processing" 0 105) (printing_state (snap "processing" 0 100)) in
  now_ s - timePriorPhoto s = seconds cfg /\
  count is_interval (trace (intervalBlock cfg s)) = 0%nat /\
  count is_capture (trace (intervalBlock cfg s)) = 0%nat.
Proof. vm_compute. repeat split. Qed.

(** ** Pause-detected episodes *)

Lemma sigpoint_clean cfg s : sig s = None -> sigpoint cfg s = (Ok tt s, []).
Proof. intros H. unfold sigpoint. rewrite H. reflexivity. Qed.

Lemma pcall_clean {A} cfg (f : Snap -> A) s :
  sig s = None -> pfail s = None -> pcall cfg f s = (Ok (f (cur s)) s, []).
Proof.
  intros Hs Hp. unfold pcall. rewrite (bind_ok _ _ _ _ _ _ (sigpoint_clean cfg s Hs)).
  cbn. rewrite Hp. reflexivity.
Qed.

Lemma gCode_clean cfg c s :
  sig s = None -> pfail s = None -> gCode cfg c s = (Ok tt s, [(now_ s, EvGCode c)]).
Proof.
  intros Hs Hp. unfold gCode. rewrite (bind_ok _ _ _ _ _ _ (pcall_clean cfg _ s Hs Hp)).
  reflexivity.
Qed.

Lemma checkForcePause_noop cfg s :
  str_in "yes" (pause cfg) = false -> checkForcePause cfg s = (Ok tt s, []).
Proof.
  intros H. unfold checkForcePause. rewrite bind_get_eq.
  destruct (alreadyPaused s); [reflexivity|]. rewrite H. reflexivity.
Qed.

Lemma Quiet_bind {A B} (m : M A) (k : A -> M B) :
  Quiet m -> (forall a, Quiet (k a)) -> Quiet (bind m k).
Proof.
  intros H1 H2 s Hs Hp.
  destruct (H1 s Hs Hp) as (a & s1 & t1 & E1 & S1 & P1 & Q1 & C1 & A1 & F1 & M1).
  destruct (H2 a s1 S1 P1) as (b & s2 & t2 & E2 & S2 & P2 & Q2 & C2 & A2 & F2 & M2).
  exists b, s2, (t1 ++ t2). rewrite (bind_ok _ _ _ _ _ _ E1), E2.
  split; [reflexivity|]. rewrite !count_app.
  repeat split; congruence || lia.
Qed.

Lemma Quiet_sigpoint cfg : Quiet (sigpoint cfg).
Proof.
  intros s Hs Hp. exists tt, s, []. rewrite (sigpoint_clean cfg s Hs).
  repeat split; assumption.
Qed.

Lemma Quiet_pcall {A} cfg (f : Snap -> A) : Quiet (pcall cfg f).
Proof.
  intros s Hs Hp. exists (f (cur s)), s, []. rewrite (pcall_clean cfg f s Hs Hp).
  repeat split; assumption.
Qed.

Lemma Quiet_checkForcePause cfg : str_in "yes" (pause cfg) = false -> Quiet (checkForcePause cfg).
Proof.
  intros H s Hs Hp. exists tt, s, []. rewrite (checkForcePause_noop cfg s H).
  repeat split; assumption.
Qed.

Ltac quiet_prim :=
  let s := fresh "s" in let Hs := fresh "Hs" in let Hp := fresh "Hp" in
  intros s Hs Hp; eexists _, _, _; split; [reflexivity|];
  repeat split; (exact Hs || exact Hp || reflexivity).

Lemma Quiet_onePhoto cfg : camera_ok cfg = true -> Quiet (onePhoto cfg).
Proof.
  intros Hc s Hs Hp.
  destruct (photo_cmd_some cfg (slot_name (frame s + 1)) Hc) as [cmd Ecmd].
  destruct s as [z f ps tpp ap c sg pf]; cbn [sig] in Hs; cbn [pfail] in Hp;
    cbn [frame] in Ecmd; subst.
  unfold onePhoto.
  set (s := mkSt z f ps tpp ap c None None).
  rewrite (bind_ok _ _ s tt (set_frame (f + 1) s) [] eq_refl).
  rewrite (bind_ok get _ _ _ _ [] eq_refl). cbn beta iota. cbn [frame set_frame].
  rewrite Ecmd. eexists _, _, _. split; [reflexivity|]. repeat split.
Qed.

Ltac quiet_leaf :=
  idtac; lazymatch goal with
  | |- Quiet (sigpoint _) => apply Quiet_sigpoint
  | |- Quiet (pcall _ _) => apply Quiet_pcall
  | |- Quiet (checkForcePause _) => apply Quiet_checkForcePause; assumption
  | |- Quiet (onePhoto _) => apply Quiet_onePhoto; assumption
  | _ => prim quiet_prim
  end.

Lemma Quiet_layerBlock cfg :
  str_in "yes" (pause cfg) = false -> camera_ok cfg = true -> Quiet (layerBlock cfg).
Proof.
  intros Hy Hc. unfold layerBlock, getLayer, getCoords, log.
  walk @Quiet_bind quiet_leaf.
Qed.

Lemma Quiet_intervalBlock cfg :
  str_in "yes" (pause cfg) = false -> camera_ok cfg = true -> Quiet (intervalBlock cfg).
Proof.
  intros Hy Hc. unfold intervalBlock, log.
  walk @Quiet_bind quiet_leaf.
Qed.

Lemma count_cons p e t : count p (e :: t) = ((if p e then 1 else 0) + count p t)%nat.
Proof. unfold count. cbn. destruct (p e); reflexivity. Qed.

Lemma unPause_on cfg s :
  alreadyPaused s = true -> sig s = None -> pfail s = None ->
  unPause cfg s = (Ok tt s, [(now_ s, EvLog LogUnpause); (now_ s, EvGCode "M24")]).
Proof.
  intros Ha Hs Hp. unfold unPause. rewrite bind_get_eq, Ha. unfold log.
  rewrite bind_emit, (gCode_clean cfg "M24" s Hs Hp). reflexivity.
Qed.

Lemma layerBlock_off cfg s :
  str_in "layer" (detect cfg) = false -> layerBlock cfg s = (Ok tt s, []).
Proof. intros H. unfold layerBlock. rewrite H. reflexivity. Qed.

Lemma intervalBlock_off cfg s : seconds cfg = 0 -> intervalBlock cfg s = (Ok tt s, []).
Proof. intros H. unfold intervalBlock. rewrite bind_get_eq, H. reflexivity. Qed.

Lemma sleep_clean cfg sn s : sig s = None -> sleep cfg sn s = (Ok tt (set_cur sn s), []).
Proof.
  intros Hs. unfold sleep. rewrite (bind_ok _ _ _ _ _ _ (sigpoint_clean cfg s Hs)). reflexivity.
Qed.

Lemma pauseBlock_run cfg s :
  sig s = None -> pfail s = None -> camera_ok cfg = true -> str_in "pause" (detect cfg) = true ->
  exists s' t, pauseBlock cfg s = (Ok tt s', t) /\ sig s' = None /\ pfail s' = None /\
    printerState s' = printerState s /\ cur s' = cur s /\
    alreadyPaused s' = alreadyPaused s || str_in "paused" (sn_status (cur s)) /\
    count is_pause_fire t =
      (if str_in "paused" (sn_status (cur s)) && negb (alreadyPaused s) then 1%nat else 0%nat) /\
    count is_m24 t =
      (if str_in "paused" (sn_status (cur s)) && negb (alreadyPaused s) then 1%nat else 0%nat) /\
    count is_capture t =
      (if str_in "paused" (sn_status (cur s)) && negb (alreadyPaused s) then 1%nat else 0%nat).
Proof.
  intros Hs Hp Hc Hd. unfold pauseBlock. rewrite Hd. unfold getStatus.
  rewrite (bind_ok _ _ _ _ _ _ (pcall_clean cfg sn_status s Hs Hp)). cbv beta.
  rewrite bind_get_eq.
  destruct (str_in "paused" (sn_status (cur s))) eqn:Ep, (alreadyPaused s) eqn:Ea;
    cbn [andb negb orb].
  - exists s, []. split; [reflexivity|]. repeat split; assumption.
  - set (s1 := set_alreadyPaused true s).
    rewrite (bind_ok (modify (set_alreadyPaused true)) _ s tt s1 [] eq_refl). cbv beta.
    rewrite bind_get_eq.
    unfold log. rewrite bind_emit.
    destruct (Quiet_onePhoto cfg Hc s1 Hs Hp)
      as ([] & s2 & t2 & E2 & S2 & P2 & Q2 & C2 & A2 & F2 & M2).
    pose proof (onePhoto_clean cfg s1 Hs Hc) as K2. unfold trace in K2. rewrite E2 in K2.
    cbn [snd] in K2.
    rewrite (bind_ok _ _ _ _ _ _ E2), (unPause_on cfg s2 A2 S2 P2).
    exists s2. eexists. split; [reflexivity|].
    cbn [fst snd app].
    rewrite ?count_cons, ?count_app, ?count_cons, F2, M2, K2. cbn [count filter length].
    repeat split; (assumption || congruence || reflexivity).
  - exists s, []. split; [reflexivity|]. repeat split; assumption.
  - exists s, []. split; [reflexivity|]. repeat split; assumption.
Qed.

Lemma clearBlock_run cfg s :
  sig s = None -> pfail s = None ->
  exists s' t, clearBlock cfg s = (Ok tt s', t) /\ sig s' = None /\ pfail s' = None /\
    printerState s' = printerState s /\ cur s' = cur s /\
    alreadyPaused s' = alreadyPaused s && str_in "paused" (sn_status (cur s)) /\
    count is_pause_fire t = 0%nat /\ count is_m24 t = 0%nat /\ count is_capture t = 0%nat.
Proof.
  intros Hs Hp. unfold clearBlock. rewrite bind_get_eq.
  destruct (alreadyPaused s) eqn:Ea; cbn [andb].
  - unfold getStatus. rewrite (bind_ok _ _ _ _ _ _ (pcall_clean cfg sn_status s Hs Hp)).
    cbv beta. destruct (str_in "paused" (sn_status (cur s))); cbn [negb].
    + exists s, []. split; [reflexivity|]. repeat split; assumption.
    + eexists _, _. split; [reflexivity|]. repeat split; assumption.
  - exists s, []. split; [reflexivity|]. repeat split; assumption.
Qed.

Lemma oneInterval_run cfg s :
  sig s = None -> pfail s = None -> camera_ok cfg = true ->
  str_in "yes" (pause cfg) = false -> str_in "pause" (detect cfg) = true ->
  exists s' t, oneInterval cfg s = (Ok tt s', t) /\ sig s' = None /\ pfail s' = None /\
    printerState s' = printerState s /\ cur s' = cur s /\
    alreadyPaused s' = str_in "paused" (sn_status (cur s)) /\
    count is_pause_fire t =
      (if str_in "paused" (sn_status (cur s)) && negb (alreadyPaused s) then 1%nat else 0%nat) /\
    count is_m24 t =
      (if str_in "paused" (sn_status (cur s)) && negb (alreadyPaused s) then 1%nat else 0%nat) /\
    (seconds cfg = 0 -> str_in "layer" (detect cfg) = false ->
     count is_capture t =
      (if str_in "paused" (sn_status (cur s)) && negb (alreadyPaused s) then 1%nat else 0%nat)).
Proof.
  intros Hs Hp Hc Hy Hd.
  destruct (Quiet_layerBlock cfg Hy Hc s Hs Hp)
    as ([] & s1 & t1 & E1 & S1 & P1 & Q1 & C1 & A1 & F1 & M1).
  destruct (Quiet_intervalBlock cfg Hy Hc s1 S1 P1)
    as ([] & s2 & t2 & E2 & S2 & P2 & Q2 & C2 & A2 & F2 & M2).
  destruct (pauseBlock_run cfg s2 S2 P2 Hc Hd)
    as (s3 & t3 & E3 & S3 & P3 & Q3 & C3 & A3 & F3 & M3 & K3).
  destruct (clearBlock_run cfg s3 S3 P3)
    as (s4 & t4 & E4 & S4 & P4 & Q4 & C4 & A4 & F4 & M4 & K4).
  rewrite C2, C1, A2, A1 in *.
  exists s4, (t1 ++ t2 ++ t3 ++ t4). unfold oneInterval.
  rewrite (bind_ok _ _ _ _ _ _ E1). cbv beta. rewrite (bind_ok _ _ _ _ _ _ E2).
  rewrite (bind_ok _ _ _ _ _ _ E3), E4. cbn [fst snd].
  split; [reflexivity|].
  rewrite !count_app, F1, F2, F3, F4, M1, M2, M3, M4.
  split; [exact S4|]. split; [exact P4|]. split; [congruence|]. split; [congruence|].
  split.
  - rewrite A4, A3, C3. destruct (alreadyPaused s), (str_in "paused" (sn_status (cur s)));
      reflexivity.
  - split; [lia|]. split; [lia|].
    intros H0 HL.
    rewrite (layerBlock_off cfg s HL) in E1. injection E1 as <- <-.
    rewrite (intervalBlock_off cfg s H0) in E2. injection E2 as <- <-.
    rewrite K3, K4. cbn. lia.
Qed.

Lemma tick_printing cfg sn s :
  printerState s = 1 -> sig s = None -> pfail s = None -> camera_ok cfg = true ->
  str_in "yes" (pause cfg) = false -> str_in "pause" (detect cfg) = true ->
  exists s' t, tick cfg sn s = (Ok tt s', t) /\ sig s' = None /\ pfail s' = None /\
    printerState s' = (if str_in "idle" (sn_status sn) then 2 else 1) /\
    alreadyPaused s' = str_in "paused" (sn_status sn) /\
    count is_pause_fire t =
      (if str_in "paused" (sn_status sn) && negb (alreadyPaused s) then 1%nat else 0%nat) /\
    count is_m24 t =
      (if str_in "paused" (sn_status sn) && negb (alreadyPaused s) then 1%nat else 0%nat) /\
    (seconds cfg = 0 -> str_in "layer" (detect cfg) = false ->
     count is_capture t =
      (if str_in "paused" (sn_status sn) && negb (alreadyPaused s) then 1%nat else 0%nat)).
Proof.
  intros Hps Hs Hp Hc Hy Hd.
  set (s1 := set_cur sn s).
  destruct (oneInterval_run cfg s1 Hs Hp Hc Hy Hd)
    as (s2 & t2 & E2 & S2 & P2 & Q2 & C2 & A2 & F2 & M2 & K2).
  change (cur s1) with sn in C2, A2, F2, M2, K2. change (alreadyPaused s1) with (alreadyPaused s) in F2, M2, K2.
  change (printerState s1) with (printerState s) in Q2.
  unfold tick. rewrite (bind_ok _ _ _ _ _ _ (sleep_clean cfg sn s Hs)). cbv beta.
  unfold getStatus. rewrite (bind_ok _ _ _ _ _ _ (pcall_clean cfg sn_status s1 Hs Hp)).
  cbv beta. rewrite bind_get_eq.
  change (printerState s1) with (printerState s). change (cur s1) with sn. rewrite Hps.
  cbn [Z.eqb Pos.eqb]. rewrite (bind_ok _ _ _ _ _ _ E2).
  unfold modify, ret.
  destruct (str_in "idle" (sn_status sn)); cbn [fst snd]; rewrite app_nil_r.
  - eexists _, t2. split; [reflexivity|]. repeat split; assumption.
  - eexists _, t2. split; [reflexivity|]. repeat split; first [assumption | congruence].
Qed.

Lemma startup_no_forced_pause cfg env :
  startup cfg env = None -> str_in "pause" (detect cfg) = true -> str_in "yes" (pause cfg) = false.
Proof.
  intros H Hd. destruct (str_in "yes" (pause cfg)) eqn:E; [|reflexivity].
  unfold startup in H. rewrite E, Hd in H.
  destruct (duplicate env); [discriminate|]. destruct (str_in "dlsr" (camera cfg)); [discriminate|].
  destruct (negb (movehead_zero cfg)); discriminate.
Qed.

Lemma loop_paused_then_clear cfg ps sn s :
  printerState s = 1 -> sig s = None -> pfail s = None -> alreadyPaused s = true ->
  camera_ok cfg = true -> str_in "yes" (pause cfg) = false -> str_in "pause" (detect cfg) = true ->
  Forall (fun x => str_in "paused" (sn_status x) = true /\ str_in "idle" (sn_status x) = false) ps ->
  str_in "paused" (sn_status sn) = false ->
  exists s' t, loop cfg (ps ++ [sn]) s = (Ok tt s', t) /\ sig s' = None /\ pfail s' = None /\
    printerState s' = (if str_in "idle" (sn_status sn) then 2 else 1) /\
    alreadyPaused s' = false /\
    count is_pause_fire t = 0%nat /\ count is_m24 t = 0%nat /\
    (seconds cfg = 0 -> str_in "layer" (detect cfg) = false -> count is_capture t = 0%nat).
Proof.
  intros Hps Hs Hp Ha Hc Hy Hd Hall Hsn. revert s Hps Hs Hp Ha.
  induction Hall as [|p ps [Hpp Hpi] Hall IH]; intros s Hps Hs Hp Ha.
  - cbn [app loop].
    destruct (tick_printing cfg sn s Hps Hs Hp Hc Hy Hd)
      as (s1 & t1 & E1 & S1 & P1 & Q1 & A1 & F1 & M1 & K1).
    rewrite Hsn, Ha in *. cbn [andb negb] in F1, M1, K1.
    exists s1, (t1 ++ []). rewrite (bind_ok _ _ _ _ _ _ E1). cbn [fst snd].
    split; [reflexivity|]. rewrite !count_app, F1, M1.
    repeat split; try assumption. intros H0 HL. rewrite (K1 H0 HL). reflexivity.
  - cbn [app loop].
    destruct (tick_printing cfg p s Hps Hs Hp Hc Hy Hd)
      as (s1 & t1 & E1 & S1 & P1 & Q1 & A1 & F1 & M1 & K1).
    rewrite Hpp, Hpi, Ha in *. cbn [andb negb] in F1, M1, K1.
    destruct (IH s1 Q1 S1 P1 A1) as (s2 & t2 & E2 & S2 & P2 & Q2 & A2 & F2 & M2 & K2).
    exists s2, (t1 ++ t2). rewrite (bind_ok _ _ _ _ _ _ E1), E2. cbn [fst snd].
    split; [reflexivity|]. rewrite !count_app, F1, M1, F2, M2.
    repeat split; try assumption. intros H0 HL. rewrite (K1 H0 HL), (K2 H0 HL).
    reflexivity.
Qed.

(** ** C2 *)

(** C2 (corrected): with the pause-detected trigger of a configuration
    that passes start-up, a camera with a capture command, and no printer
    failure or interrupt, an episode seen while printing, made of one or
    more ticks whose status reports paused (and not idle), entered with
    [alreadyPaused] false and ended by a tick whose status no longer
    reports paused, detects the pause exactly once and sends exactly one
    M24, however many paused ticks there are; the ending tick clears
    [alreadyPaused], so the next episode is detected again.  The pause
    capture is the only capture of the episode when [seconds] is 0 and the
    layer trigger is off; otherwise those triggers capture as well. *)
Theorem pause_episode_once cfg env s p ps sn :
  startup cfg env = None -> camera_ok cfg = true -> str_in "pause" (detect cfg) = true ->
  printerState s = 1 -> alreadyPaused s = false -> sig s = None -> pfail s = None ->
  Forall (fun x => str_in "paused" (sn_status x) = true /\ str_in "idle" (sn_status x) = false)
    (p :: ps) ->
  str_in "paused" (sn_status sn) = false ->
  let r := loop cfg (p :: ps ++ [sn]) s in
  (exists s', outcome r = Ok tt s' /\ alreadyPaused s' = false /\
     sig s' = None /\ pfail s' = None /\
     printerState s' = (if str_in "idle" (sn_status sn) then 2 else 1)) /\
  count is_pause_fire (trace r) = 1%nat /\ count is_m24 (trace r) = 1%nat /\
  (seconds cfg = 0 -> str_in "layer" (detect cfg) = false -> count is_capture (trace r) = 1%nat).
Proof.
  intros Hst Hc Hd Hps Ha Hs Hp Hall Hsn r.
  pose proof (startup_no_forced_pause cfg env Hst Hd) as Hy.
  inversion Hall as [|p' ps' [Hpp Hpi] Hall' Heq]; subst p' ps'.
  destruct (tick_printing cfg p s Hps Hs Hp Hc Hy Hd)
    as (s1 & t1 & E1 & S1 & P1 & Q1 & A1 & F1 & M1 & K1).
  rewrite Hpp, Hpi, Ha in *. cbn [andb negb] in F1, M1, K1.
  destruct (loop_paused_then_clear cfg ps sn s1 Q1 S1 P1 A1 Hc Hy Hd Hall' Hsn)
    as (s2 & t2 & E2 & S2 & P2 & Q2 & A2 & F2 & M2 & K2).
  assert (Er : r = (Ok tt s2, t1 ++ t2)).
  { subst r. cbn [loop]. rewrite (bind_ok _ _ _ _ _ _ E1), E2. reflexivity. }
  rewrite Er. unfold outcome, trace. cbn [fst snd].
  split; [exists s2; repeat split; assumption|].
  rewrite !count_app, F1, M1, F2, M2. repeat split.
  intros H0 HL. rewrite (K1 H0 HL), (K2 H0 HL). reflexivity.
Qed.

Lemma pause_episode_once_witness :
  let cfg := cfg_with "usb" "pause" "no" 0 (0, 0) in
  let s := printing_state (snap "processing" 0 0) in
  let r := loop cfg (snap "paused" 0 1 :: [snap "paused" 0 2] ++ [snap "processing" 0 3]) s in
  count is_pause_fire (trace r) = 1%nat /\ count is_m24 (trace r) = 1%nat /\
  count is_capture (trace r) = 1%nat.
Proof.
  intros cfg s r.
  destruct (pause_episode_once cfg env_ok s (snap "paused" 0 1) [snap "paused" 0 2]
              (snap "processing" 0 3) eq_refl eq_refl eq_refl eq_refl eq_refl eq_refl eq_refl
              ltac:(repeat constructor) eq_refl) as (_ & F & M & K).
  split; [exact F|]. split; [exact M|]. apply K; reflexivity.
Defined.

(** C2 does not hold as stated: with [-seconds 5] the interval trigger
    keeps capturing during a long pause, so the episode has three captures
    for its one detected pause and one M24. *)
Lemma pause_episode_interval_captures :
  let cfg := cfg_with "usb" "pause" "no" 5 (0, 0) in
  let s := printing_state (snap "processing" 0 0) in
  let r := loop cfg [snap "paused" 0 1; snap "paused" 0 7; snap "paused" 0 13;
                     snap "processing" 0 14] s in
  count is_pause_fire (trace r) = 1%nat /\ count is_m24 (trace r) = 1%nat /\
  count is_capture (trace r) = 3%nat /\ alreadyPaused (final r) = false.
Proof. vm_compute. repeat split. Qed.

(** * More of the script *)

(** ** The instance check and the log file of [init()] *)

Lemma instance_counts_fold ins duet file procs pc al :
  fold_left (instance_step ins duet file) procs (pc, al) =
  (pc + Z.of_nat (List.length (filter (is_instance file) procs)),
   al + (if str_in "single" ins then Z.of_nat (List.length (filter (is_instance file) procs)) else 0)
      + (if str_in "oneip" ins
         then Z.of_nat (List.length (filter (fun p => is_instance file p && list_in duet (pcmdline p)) procs))
         else 0)).
Proof.
  revert pc al. induction procs as [|p r IH]; intros pc al; cbn [fold_left filter].
  - destruct (str_in "single" ins), (str_in "oneip" ins); f_equal; cbn; lia.
  - unfold instance_step at 2. destruct (is_instance file p) eqn:Ei; cbn [andb];
      rewrite IH; [destruct (list_in duet (pcmdline p))|];
      destruct (str_in "single" ins), (str_in "oneip" ins); cbn [List.length];
      f_equal; lia.
Qed.

Lemma instance_counts_eq ins duet file procs :
  instance_counts ins duet file procs =
  (Z.of_nat (List.length (filter (is_instance file) procs)),
   (if str_in "single" ins then Z.of_nat (List.length (filter (is_instance file) procs)) else 0)
   + (if str_in "oneip" ins
      then Z.of_nat (List.length (filter (fun p => is_instance file p && list_in duet (pcmdline p)) procs))
      else 0)).
Proof. unfold instance_counts. rewrite instance_counts_fold. f_equal. Qed.

Lemma init_logging_refused ins lt duet bd file procs :
  init_logging ins lt duet bd file procs = inl 1 <->
  1 < snd (instance_counts ins duet file procs).
Proof.
  unfold init_logging. destruct (instance_counts ins duet file procs) as [pc al]. cbn [snd].
  destruct (al >? 1) eqn:E; split; intros H; try discriminate; try reflexivity.
  - rewrite Z.gtb_ltb in E; apply Z.ltb_lt in E. exact E.
  - rewrite Z.gtb_ltb in E; apply Z.ltb_ge in E. lia.
Qed.

(** With [-instances many] the instance check never stops the script:
    [allowed] stays 0 whatever processes run. *)
Theorem many_instances_never_refused lt duet bd file procs :
  exists hs, init_logging "many" lt duet bd file procs = inr hs.
Proof.
  destruct (init_logging "many" lt duet bd file procs) as [c|hs] eqn:E; [|eauto].
  exfalso. assert (c = 1) by (unfold init_logging in E;
    destruct (instance_counts _ _ _ _), (_ >? 1); congruence). subst c.
  apply init_logging_refused in E. rewrite instance_counts_eq in E. cbn in E. lia.
Qed.

(** With [-instances single] the script exits with status 1 exactly when
    at least two Python 3 processes run this script (itself and another). *)
Theorem single_instance_refused_iff_another_runs lt duet bd file procs :
  init_logging "single" lt duet bd file procs = inl 1 <->
  (2 <= List.length (filter (is_instance file) procs))%nat.
Proof.
  rewrite init_logging_refused, instance_counts_eq. cbn [snd]. cbn - [List.length filter]. lia.
Qed.

(** With [-instances oneip] only the processes that have the [-duet] value
    as a separate word of their command line count: the script exits with
    status 1 exactly when two such processes run.  An instance started
    without [-duet] (the default [localhost]) is never counted. *)
Theorem oneip_refused_iff_same_duet_on_cmdline lt duet bd file procs :
  init_logging "oneip" lt duet bd file procs = inl 1 <->
  (2 <= List.length (filter (fun p => is_instance file p && list_in duet (pcmdline p)) procs))%nat.
Proof.
  rewrite init_logging_refused, instance_counts_eq. cbn [snd]. cbn - [List.length filter]. lia.
Qed.

(** When the logger gets a file handler, it opens [DuetLapse.log] in mode
    ['a'] exactly when at least two instances of the script run, and in
    mode ['w'] (truncating the log) otherwise. *)
Theorem log_file_appended_iff_other_instance ins lt duet bd file procs hs path mode fmt :
  init_logging ins lt duet bd file procs = inr hs -> In (FileH path mode fmt) hs ->
  (mode = "a" <-> (2 <= List.length (filter (is_instance file) procs))%nat).
Proof.
  unfold init_logging. rewrite instance_counts_eq.
  destruct (_ >? 1); [discriminate|]. intros E Hin. injection E as <-.
  apply in_app_or in Hin. destruct Hin as [Hin|Hin];
    destruct (_ || _) in Hin; cbn in Hin; try contradiction;
    destruct Hin as [Hin|[]]; try discriminate.
  injection Hin as _ <- _.
  destruct (Z.of_nat _ >? 1) eqn:E.
  - rewrite Z.gtb_ltb in E; apply Z.ltb_lt in E. split; [lia|reflexivity].
  - rewrite Z.gtb_ltb in E; apply Z.ltb_ge in E. split; [discriminate|lia].
Qed.

Lemma log_file_appended_iff_other_instance_witness :
  let procs := [mkProc "python3" ["python3"; "DuetLapse.py"];
                mkProc "python3" ["python3"; "DuetLapse.py"; "-instances"; "many"]] in
  init_logging "many" "both" "localhost" "~" "DuetLapse.py" procs
  = inr [StreamH "localhost %(message)s";
         FileH "~/DuetLapse.log" "a" "localhost - %(asctime)s - %(message)s"] /\
  ("a" = "a" <-> (2 <= List.length (filter (is_instance "DuetLapse.py") procs))%nat).
Proof.
  intros procs. split; [reflexivity|].
  apply (log_file_appended_iff_other_instance "many" "both" "localhost" "~" "DuetLapse.py" procs
           [StreamH "localhost %(message)s";
            FileH "~/DuetLapse.log" "a" "localhost - %(asctime)s - %(message)s"]
           "~/DuetLapse.log" "a" "localhost - %(asctime)s - %(message)s").
  - reflexivity.
  - right. left. reflexivity.
Defined.

(** ** Frame file names read back *)

Lemma list_ascii_app x y :
  list_ascii_of_string (x ++ y) = (list_ascii_of_string x ++ list_ascii_of_string y)%list.
Proof. induction x as [|c x IH]; cbn; [reflexivity|now rewrite IH]. Qed.

Lemma str_app_cancel_l p x y : (p ++ x)%string = (p ++ y)%string -> x = y.
Proof. induction p as [|c p IH]; cbn; [auto|]. intros H. injection H. exact IH. Qed.

Lemma str_app_cancel_r x y q : (x ++ q)%string = (y ++ q)%string -> x = y.
Proof.
  intros H. apply (f_equal list_ascii_of_string) in H. rewrite !list_ascii_app in H.
  apply app_inv_tail in H.
  rewrite <- (string_of_list_ascii_of_string x), <- (string_of_list_ascii_of_string y).
  now rewrite H.
Qed.

Lemma dval_app x y :
  dval (x ++ y) = fold_left dstep (list_ascii_of_string y) (dval x).
Proof. unfold dval. rewrite list_ascii_app, fold_left_app. reflexivity. Qed.

Lemma dval_zeros_app k y : dval (zeros k ++ y) = dval y.
Proof.
  rewrite dval_app. replace (dval (zeros k)) with 0; [reflexivity|].
  unfold dval. induction k as [|k IH]; [reflexivity|]. cbn [zeros list_ascii_of_string fold_left].
  exact IH.
Qed.

Lemma digits_rev_value f n :
  0 <= n < 10 ^ Z.of_nat f ->
  fold_right (fun c acc => dstep acc c) 0 (digits_rev f n) = n.
Proof.
  revert n. induction f as [|f IH]; intros n Hn.
  - cbn in Hn. cbn. lia.
  - rewrite pow10_S in Hn. cbn [digits_rev].
    destruct (n <=? 0) eqn:E.
    + apply Z.leb_le in E. cbn. lia.
    + apply Z.leb_gt in E. cbn [fold_right]. rewrite IH.
      * unfold dstep. rewrite nat_ascii_embedding.
        -- pose proof (Z.mod_pos_bound n 10). pose proof (Z.div_mod n 10).
           rewrite Nat2Z.inj_add, Z2Nat.id by lia. lia.
        -- pose proof (Z.mod_pos_bound n 10).
           assert (Z.to_nat (n mod 10) < 10)%nat by lia. lia.
      * split; [apply Z.div_pos; lia|]. apply Z.div_lt_upper_bound; lia.
Qed.

Lemma dec_fuel n : 0 < n -> n < 10 ^ Z.of_nat (S (Z.to_nat (Z.log2 n))).
Proof.
  intros Hn. destruct (Z.log2_spec n Hn) as [_ H2].
  pose proof (Z.log2_nonneg n).
  assert (Z.of_nat (S (Z.to_nat (Z.log2 n))) = Z.succ (Z.log2 n)) as -> by lia.
  eapply Z.lt_le_trans; [exact H2|]. apply Z.pow_le_mono_l; lia.
Qed.

Lemma fold_left_rev {A B} (f : A -> B -> A) l a :
  fold_left f (rev l) a = fold_right (fun x y => f y x) a l.
Proof.
  induction l as [|x l IH]; cbn; [reflexivity|]. now rewrite fold_left_app, IH.
Qed.

Lemma dval_dec n : 0 <= n -> dval (dec n) = n.
Proof.
  intros Hn. unfold dec. destruct (n =? 0) eqn:E.
  - apply Z.eqb_eq in E. subst. reflexivity.
  - apply Z.eqb_neq in E. unfold dval.
    rewrite list_ascii_of_string_of_list_ascii, fold_left_rev.
    apply digits_rev_value. split; [lia|]. apply dec_fuel. lia.
Qed.

Lemma dval_fmt08 n : 0 <= n -> dval (fmt08 n) = n.
Proof.
  intros Hn. unfold fmt08.
  replace (n <? 0) with false by (symmetry; apply Z.ltb_ge; lia).
  unfold zfill. rewrite dval_zeros_app. apply dval_dec, Hn.
Qed.

Lemma slot_name_inj a b : 0 <= a -> 0 <= b -> slot_name a = slot_name b -> a = b.
Proof.
  intros Ha Hb H. unfold slot_name in H.
  apply str_app_cancel_l, str_app_cancel_r in H.
  rewrite <- (dval_fmt08 a Ha), <- (dval_fmt08 b Hb). now rewrite H.
Qed.

Lemma in_zseq x a n : In x (zseq a n) -> a <= x.
Proof.
  revert a. induction n as [|n IH]; intros a; cbn; [contradiction|].
  intros [<-|H]; [lia|]. specialize (IH _ H). lia.
Qed.

Lemma slots_nodup a n : 0 <= a -> NoDup (map slot_name (zseq a n)).
Proof.
  revert a. induction n as [|n IH]; intros a Ha; cbn; constructor.
  - intros Hin. apply in_map_iff in Hin. destruct Hin as [x [Ex Hx]].
    apply in_zseq in Hx. apply slot_name_inj in Ex; lia.
  - apply IH. lia.
Qed.

Lemma FrameOK_loop_caps cfg sns s :
  exists n, capture_fns (trace (loop cfg sns s)) = map slot_name (zseq (frame s + 1) n).
Proof. destruct (FrameOK_loop cfg sns s) as [n [C _]]. eauto. Qed.

(** No two captures of a run write the same file, however many frames are
    taken: the frame number can be read back from the file name, also past
    [10^8] frames where the zero padding runs out. *)
Theorem capture_files_never_reused cfg env sn0 sns sg pf :
  NoDup (capture_fns (trace (process cfg env sn0 sns sg pf))).
Proof.
  unfold process. destruct (startup cfg env) as [c|]; [constructor|].
  rewrite main_loop_eq. destruct (FrameOK_loop_caps cfg sns (init_state sn0 sg pf)) as [n ->].
  apply slots_nodup. cbn. lia.
Qed.

(** ** [-extratime] and [postProcess] *)








(** ** The [KeyboardInterrupt] handler *)






(** ** Waiting for the print, and the end of it *)





(** ** At most one pause request per iteration *)




























(** ** A negative [-seconds] *)






